(** * Persona crawler: a shallow embedding of [main.py]

    The crawl engine and the scoring pipeline of the persona crawler are
    embedded as Rocq functions.  Python [int] is [Z], [str] is [string]
    (code points below 256), the visited [set] is a [gset string], the
    frontier [deque] and the page list are lists, the [PERSONAS] dict, which
    is iterated in insertion order, is an association list and the
    [RECOMMENDATIONS] dict, which is only looked up, is a [gmap].

    What the program obtains from its libraries ([requests],
    [BeautifulSoup], [urllib.parse]) is a parameter of the crawl engine:
    the HTTP fetcher, the markup parser, with the documents on which it
    raises, and the URL functions are the variables of the section
    [Crawler]. *)

From Stdlib Require Import ZArith String Ascii List Lia Bool.
From stdpp Require Import gmap strings list.

Local Open Scope string_scope.
Local Open Scope list_scope.
Local Open Scope Z_scope.

(** ** Python string methods *)

Module PyStr.

(** [s.startswith(w)]. *)
Fixpoint startswith (w s : string) : bool :=
  match w, s with
  | EmptyString, _ => true
  | String _ _, EmptyString => false
  | String a w', String b s' => if Ascii.eqb a b then startswith w' s' else false
  end.

(** [s.endswith(w)], through the reversed strings. *)
Definition endswith (w s : string) : bool :=
  startswith (String.rev w) (String.rev s).

(** The left-to-right scan of [s.count(w)] for a non-empty [w]: a match at
    the current position counts and the scan resumes after it ([skip] is
    the number of characters of the last match still to pass). *)
Fixpoint count_scan (w : string) (skip : nat) (s : string) : Z :=
  match s with
  | EmptyString => 0
  | String _ s' =>
      match skip with
      | S k => count_scan w k s'
      | O => if startswith w s
             then 1 + count_scan w (String.length w - 1) s'
             else count_scan w 0 s'
      end
  end.

(** [s.count(w)]; for the empty [w] Python answers [len(s) + 1]. *)
Definition count (s w : string) : Z :=
  match w with
  | EmptyString => Z.of_nat (String.length s) + 1
  | String _ _ => count_scan w 0 s
  end.

(** [w in s]. *)
Fixpoint contains (w s : string) : bool :=
  startswith w s ||
  match s with
  | EmptyString => false
  | String _ s' => contains w s'
  end.

(** The scan of [s.replace(old, new)] for a non-empty [old]. *)
Fixpoint replace_scan (old new : string) (skip : nat) (s : string) : string :=
  match s with
  | EmptyString => EmptyString
  | String c s' =>
      match skip with
      | S k => replace_scan old new k s'
      | O => if startswith old s
             then String.append new (replace_scan old new (String.length old - 1) s')
             else String c (replace_scan old new 0 s')
      end
  end.

(** With an empty [old], [new] is put before every character and at the
    end. *)
Fixpoint intersperse (new s : string) : string :=
  match s with
  | EmptyString => new
  | String c s' => String.append new (String c (intersperse new s'))
  end.

(** [s.replace(old, new)]: every non-overlapping occurrence, from the
    left. *)
Definition replace (s old new : string) : string :=
  match old with
  | EmptyString => intersperse new s
  | String _ _ => replace_scan old new 0 s
  end.

(** [c.isspace()], which is what [\s] matches in a [str] pattern: tab,
    LF, VT, FF, CR, the separators 0x1c-0x1f, space, NEL and NBSP. *)
Definition is_space (c : ascii) : bool :=
  let n := nat_of_ascii c in
  ((9 <=? n) && (n <=? 13) || (28 <=? n) && (n <=? 32) ||
   (n =? 133) || (n =? 160))%nat.

(** [c.lower()]: A-Z and the Latin-1 capitals 0xc0-0xde, the
    multiplication sign 0xd7 apart, move up by 32. *)
Definition lower_char (c : ascii) : ascii :=
  let n := nat_of_ascii c in
  if ((65 <=? n) && (n <=? 90) ||
      (192 <=? n) && (n <=? 222) && negb (n =? 215))%nat
  then ascii_of_nat (n + 32) else c.

(** [s.lower()]. *)
Fixpoint lower (s : string) : string :=
  match s with
  | EmptyString => EmptyString
  | String c s' => String (lower_char c) (lower s')
  end.

(** [re.sub(r"\s+", " ", s)]: every maximal run of white space becomes
    one space.  [in_run] tells that the previous character was white
    space, so that the run has already been replaced. *)
Fixpoint collapse_ws (in_run : bool) (s : string) : string :=
  match s with
  | EmptyString => EmptyString
  | String c s' =>
      if is_space c
      then if in_run then collapse_ws true s'
           else String " " (collapse_ws true s')
      else String c (collapse_ws false s')
  end.

Definition re_sub_ws (s : string) : string := collapse_ws false s.

(** [w] occurs in [s] at index [p]. *)
Fixpoint occurs_at (w s : string) (p : nat) : bool :=
  match p with
  | O => startswith w s
  | S p' =>
      match s with
      | EmptyString => false
      | String _ s' => occurs_at w s' p'
      end
  end.

(** [ps] lists, in increasing order and from index [lo] on, occurrences of
    [w] in [s] no two of which share a character. *)
Fixpoint disjoint_occs (w s : string) (lo : nat) (ps : list nat) : Prop :=
  match ps with
  | [] => True
  | p :: ps' =>
      (lo <= p)%nat /\ occurs_at w s p = true /\
      disjoint_occs w s (p + String.length w) ps'
  end.

(** [n] is the number of non-overlapping occurrences of [w] in [s]: some
    family of pairwise disjoint occurrences has [n] members and none has
    more.  The empty word occurs once at each of the [len(s) + 1]
    positions. *)
Definition occurrence_number (s w : string) (n : Z) : Prop :=
  match w with
  | EmptyString => n = Z.of_nat (String.length s) + 1
  | String _ _ =>
      exists ps, disjoint_occs w s 0 ps /\ n = Z.of_nat (length ps) /\
                 forall qs, disjoint_occs w s 0 qs -> (length qs <= length ps)%nat
  end.

(** [s.lstrip()]: the white space at the start is dropped. *)
Fixpoint lstrip (s : string) : string :=
  match s with
  | EmptyString => EmptyString
  | String c s' => if is_space c then lstrip s' else s
  end.

(** [s.rstrip()]: the white space at the end is dropped. *)
Fixpoint rstrip (s : string) : string :=
  match s with
  | EmptyString => EmptyString
  | String c s' =>
      match rstrip s' with
      | EmptyString => if is_space c then EmptyString else String c EmptyString
      | String _ _ as r => String c r
      end
  end.

(** [s.strip()]. *)
Definition strip (s : string) : string := rstrip (lstrip s).

(** [s.split(sep)] for a separator of one character: the pieces between
    the separators, one more than there are separators. *)
Fixpoint split (s : string) (sep : ascii) : list string :=
  match s with
  | EmptyString => [EmptyString]
  | String c s' =>
      if Ascii.eqb c sep then EmptyString :: split s' sep
      else match split s' sep with
           | piece :: pieces => String c piece :: pieces
           | [] => [String c EmptyString]
           end
  end.

End PyStr.

(** ** Configuration tables *)

(** A value of the [PERSONAS] dict. *)
Record Persona := {
  positive : list string;
  negative : list string;
  proof : list string
}.

Definition PERSONAS : list (string * Persona) := [
  ("Fixer",
   {| positive := ["fast"; "instant"; "today"; "solve"; "fix"; "guarantee"];
      negative := ["maybe"; "eventually"; "could"];
      proof := ["guarantee"; "delivery"; "today"] |});
  ("Skeptic",
   {| positive := ["reviews"; "trusted"; "refund"; "returns"; "policy"];
      negative := ["miracle"; "hype"];
      proof := ["reviews"; "refund"; "returns"] |});
  ("Optimizer",
   {| positive := ["results"; "performance"; "optimize"; "data"; "compare"];
      negative := ["generic"];
      proof := ["data"; "study"; "results"] |});
  ("Explorer",
   {| positive := ["discover"; "story"; "learn"; "why"];
      negative := [];
      proof := ["community"; "story"] |});
  ("DealMax",
   {| positive := ["save"; "deal"; "bundle"; "discount"; "off"];
      negative := [];
      proof := ["save"; "deal"; "bundle"] |})
].

Definition RECOMMENDATIONS : gmap string (gmap string string) :=
  list_to_map [
    ("Fixer", list_to_map [
      ("overall_low", "Add a clear above-the-fold headline stating the problem you solve immediately.");
      ("missing_proof", "Add delivery time or a guarantee near the primary CTA.");
      ("weak_language", "Use urgency language like 'Get it today' or 'Fast results'.");
      ("conflicting_language", "Remove uncertain language like 'may help' or 'eventually'.")]);
    ("Skeptic", list_to_map [
      ("overall_low", "Increase visible trust signals above the fold.");
      ("missing_proof", "Move reviews, return policy, or trust badges closer to the CTA.");
      ("weak_language", "Add reassurance copy such as 'verified buyers' or 'risk-free'.");
      ("conflicting_language", "Remove exaggerated or hype-driven claims.")]);
    ("Optimizer", list_to_map [
      ("overall_low", "Clarify how this product performs better than alternatives.");
      ("missing_proof", "Add comparison tables or data-backed claims.");
      ("weak_language", "Use outcome-driven language like 'improves performance'.");
      ("conflicting_language", "Reduce generic marketing language.")]);
    ("Explorer", list_to_map [
      ("overall_low", "Add storytelling or brand narrative elements.");
      ("missing_proof", "Include lifestyle imagery or community usage examples.");
      ("weak_language", "Use curiosity-driven language like 'discover why'.")]);
    ("DealMax", list_to_map [
      ("overall_low", "Introduce visible savings such as bundles or discounts.");
      ("missing_proof", "Show price comparisons or savings badges.");
      ("weak_language", "Use deal language like 'Save more' or 'Limited-time offer'.")])
  ].

(** ** Scoring, diagnosis, priority and page type *)

(** The dict that [score_persona] returns. *)
Record Score := {
  score : Z;
  positive_hits : Z;
  negative_hits : Z;
  proof_hits : Z
}.

(** [sum(text.count(w) for w in words)]: the generator is summed from 0,
    left to right. *)
Definition count_hits (text : string) (words : list string) : Z :=
  fold_left (fun acc w => acc + PyStr.count text w) words 0.

Definition score_persona (text : string) (persona : Persona) : Score :=
  let pos := count_hits text (positive persona) in
  let neg := count_hits text (negative persona) in
  let proof := count_hits text (proof persona) in
  let raw_score := (pos * 3) + (proof * 5) - (neg * 4) in
  let score := Z.max 0 (Z.min 100 raw_score) in
  {| score := score; positive_hits := pos; negative_hits := neg;
     proof_hits := proof |}.

Definition diagnose (score pos neg proof : Z) : list string :=
  let issues := [] in
  let issues := if score <? 50 then issues ++ ["overall_low"] else issues in
  let issues := if proof =? 0 then issues ++ ["missing_proof"] else issues in
  let issues := if pos <? 2 then issues ++ ["weak_language"] else issues in
  let issues := if neg >? 0 then issues ++ ["conflicting_language"] else issues in
  issues.

Definition priority (score : Z) : string :=
  if score <? 40 then "HIGH"
  else if score <? 60 then "MEDIUM"
  else "LOW".

Definition detect_page_type (url : string) : string :=
  if PyStr.endswith "/" url || (PyStr.count url "/" <=? 3)
  then "Homepage / Landing"
  else if PyStr.contains "product" url then "Product Page"
  else if PyStr.contains "collection" url || PyStr.contains "category" url
  then "Collection Page"
  else "Other".

(** The suggestions of one persona: when the persona has a table, each
    issue with an entry appends its text. *)
Definition suggest (pname : string) (issues : list string) : list string :=
  match RECOMMENDATIONS !! pname with
  | Some table =>
      fold_left
        (fun suggestions issue =>
           match table !! issue with
           | Some text => suggestions ++ [text]
           | None => suggestions
           end)
        issues []
  | None => []
  end.

(** A value of [page_info["personas"]]. *)
Record PersonaScore := {
  ps_score : Z;
  ps_priority : string;
  ps_issues : list string;
  ps_suggestions : list string
}.

(** A page of the result. *)
Record PageResult := {
  url : string;
  page_type : string;
  personas : list (string * PersonaScore)
}.

(** The body of the loop over [PERSONAS.items()]. *)
Definition persona_entry (text : string) (item : string * Persona)
  : string * PersonaScore :=
  let '(pname, persona) := item in
  let s := score_persona text persona in
  let issues :=
    diagnose (score s) (positive_hits s) (negative_hits s) (proof_hits s) in
  let suggestions := suggest pname issues in
  (pname, {| ps_score := score s; ps_priority := priority (score s);
             ps_issues := issues; ps_suggestions := suggestions |}).

Definition make_page_info (url text : string) : PageResult :=
  {| url := url; page_type := detect_page_type url;
     personas := map (persona_entry text) PERSONAS |}.

(** ** The crawl engine *)

(** What [requests.get] does: it raises (network failure, timeout) or
    returns a response with a status code and a body. *)
Inductive fetch_result :=
  | FetchRaises
  | Response (status_code : Z) (text : string).

(** The fetch fails: [requests.get] raises or the status is not 200. *)
Definition fetch_fails (r : fetch_result) : Prop :=
  match r with
  | FetchRaises => True
  | Response status_code _ => status_code <> 200
  end.

(** The locals of [run_crawl] that the loop changes, and the requests
    issued so far. *)
Record state := {
  visited : gset string;
  queue : list string;
  pages : list PageResult;
  requests : list string
}.

(** One turn of the [while] loop: the loop is left normally, a new turn
    starts, or an exception leaves [run_crawl]. *)
Inductive turn :=
  | Done
  | Next (st : state)
  | Raises.

(** How a call of [run_crawl] ends. *)
Inductive outcome :=
  | Returns (final : state)
  | RaisesError.

Section Crawler.

(** [requests.get(url, headers=HEADERS, timeout=10)]; the answer may
    depend on the requests made before. *)
Variable http_get : list string -> string -> fetch_result.

(** [BeautifulSoup(html, "html.parser")] returns: [false] for a document
    on which the parser raises.  The two calls of a turn, in [clean_text]
    and before the anchors are read, are given the same document, so the
    second raises when the first does. *)
Variable parses : string -> bool.

(** [soup.get_text(separator=" ")] of the parsed document, once its
    [script], [style] and [noscript] elements are decomposed. *)
Variable get_text : string -> string.

(** The [href] values of [soup.find_all("a", href=True)], in document
    order. *)
Variable find_all_a_href : string -> list string.

(** [urljoin(base, href)] and [urlparse(url).netloc]; [None] when
    [urllib.parse] raises [ValueError]. *)
Variable urljoin : string -> string -> option string.
Variable netloc : string -> option string.

(** What [clean_text] returns for a document that the parser accepts. *)
Definition clean_text (html : string) : string :=
  PyStr.lower (PyStr.re_sub_ws (get_text html)).

(** [netloc.replace("www.", "")]. *)
Definition strip_www (host : string) : string := PyStr.replace host "www." "".

(** The test of a link's domain against the crawl's base domain. *)
Definition same_domain (base_domain link_domain : string) : bool :=
  bool_decide (link_domain = "") || bool_decide (link_domain = base_domain).

(** The loop over the anchors of a page: each [href] is resolved against
    the page's URL; a link of the crawl's domain that is not in the visited
    set is appended to the queue.  [None] when a URL function raises. *)
Fixpoint discover (base_domain url : string) (seen : gset string)
    (hrefs : list string) (queue : list string) : option (list string) :=
  match hrefs with
  | [] => Some queue
  | href :: hrefs' =>
      match urljoin url href with
      | None => None
      | Some link =>
          match netloc link with
          | None => None
          | Some host =>
              let link_domain := strip_www host in
              if same_domain base_domain link_domain
              then if bool_decide (link ∈ seen)
                   then discover base_domain url seen hrefs' queue
                   else discover base_domain url seen hrefs' (queue ++ [link])
              else discover base_domain url seen hrefs' queue
          end
      end
  end.

Section Loop.

Variable base_domain : string.
Variable max_pages : Z.

(** The body of [while queue and len(visited) < max_pages]. *)
Definition step (st : state) : turn :=
  match queue st with
  | [] => Done
  | url :: rest =>
      if bool_decide (Z.of_nat (size (visited st)) < max_pages) then
        if bool_decide (url ∈ visited st) then
          Next {| visited := visited st; queue := rest;
                  pages := pages st; requests := requests st |}
        else
          let skip :=
            Next {| visited := visited st; queue := rest;
                    pages := pages st; requests := requests st ++ [url] |} in
          match http_get (requests st) url with
          | FetchRaises => skip
          | Response status_code html =>
              if negb (status_code =? 200) then skip
              else
                let visited' := visited st ∪ {[ url ]} in
                if negb (parses html) then Raises
                else
                  let text := clean_text html in
                  let page_info := make_page_info url text in
                  match discover base_domain url visited'
                          (find_all_a_href html) rest with
                  | None => Raises
                  | Some queue' =>
                      Next {| visited := visited'; queue := queue';
                              pages := pages st ++ [page_info];
                              requests := requests st ++ [url] |}
                  end
          end
      else Done
  end.

(** The loop, for at most [fuel] further turns after the first test. *)
Fixpoint crawl_loop (fuel : nat) (st : state) : option outcome :=
  match step st with
  | Done => Some (Returns st)
  | Raises => Some RaisesError
  | Next st' =>
      match fuel with
      | O => None
      | S fuel' => crawl_loop fuel' st'
      end
  end.

(** The states of the loop that [run_crawl] goes through from [st0]. *)
Inductive reaches (st0 : state) : state -> Prop :=
  | reaches_start : reaches st0 st0
  | reaches_next st st' :
      reaches st0 st -> step st = Next st' -> reaches st0 st'.

End Loop.

Definition initial (start_url : string) : state :=
  {| visited := ∅; queue := [start_url]; pages := []; requests := [] |}.

(** [run_crawl(start_url, max_pages)]: the final state of the loop, whose
    [pages] the function returns. *)
Definition run_crawl_state (fuel : nat) (start_url : string) (max_pages : Z)
  : option outcome :=
  match netloc start_url with
  | None => Some RaisesError
  | Some host =>
      crawl_loop (strip_www host) max_pages fuel (initial start_url)
  end.

(** What [run_crawl] returns: [Some (Some pages)] for the page list,
    [Some None] when an exception leaves the function, [None] when [fuel]
    turns do not finish the loop. *)
Definition run_crawl (fuel : nat) (start_url : string) (max_pages : Z)
  : option (option (list PageResult)) :=
  match run_crawl_state fuel start_url max_pages with
  | Some (Returns final) => Some (Some (pages final))
  | Some RaisesError => Some None
  | None => None
  end.

(** [href], found in the page at [url], resolves to [link], a link of
    the crawl's domain. *)
Definition resolves (base_domain url href link : string) : Prop :=
  exists host,
    urljoin url href = Some link /\ netloc link = Some host /\
    same_domain base_domain (strip_www host) = true.

(** [link] is a link of the crawl's domain that the document [html],
    fetched at [url], holds. *)
Definition links_to (base_domain url html link : string) : Prop :=
  exists href,
    href ∈ find_all_a_href html /\ resolves base_domain url href link.

(** Every anchor of the document resolves: the URL functions do not
    raise on it. *)
Definition links_resolve (url html : string) : Prop :=
  forall href, href ∈ find_all_a_href html ->
    exists link host, urljoin url href = Some link /\ netloc link = Some host.

(** The pages of a site, given by the document at each URL, that a crawl
    from [start_url] can come to through links of its domain. *)
Inductive page_reachable (base_domain : string) (site : string -> string)
    (start_url : string) : string -> Prop :=
  | reach_start : page_reachable base_domain site start_url start_url
  | reach_link url link :
      page_reachable base_domain site start_url url ->
      links_to base_domain url (site url) link ->
      page_reachable base_domain site start_url link.

End Crawler.

(** ** The API key gate and the endpoint *)

(** [VALID_API_KEYS], computed from the environment variable [API_KEYS]
    ([None] when it is not set, which [os.getenv] reads as the empty
    string): the pieces between commas whose stripped text is not empty,
    stripped. *)
Definition VALID_API_KEYS (API_KEYS : option string) : gset string :=
  list_to_set
    (map PyStr.strip
       (filter (fun k => PyStr.strip k <> EmptyString)
          (PyStr.split (default EmptyString API_KEYS) ","))).

(** [HTTPException(status_code=..., detail=...)]. *)
Record HTTPException := {
  exc_status_code : Z;
  exc_detail : string
}.

(** [get_api_key]: [api_key] is the value of the header [X-API-Key],
    [None] when the request has none ([auto_error] is off).  The key is
    returned when it is a valid one, otherwise the exception is raised. *)
Definition get_api_key (API_KEYS : option string) (api_key : option string)
  : HTTPException + string :=
  match api_key with
  | Some key =>
      if bool_decide (key ∈ VALID_API_KEYS API_KEYS) then inr key
      else inl {| exc_status_code := 403;
                  exc_detail := "Invalid or missing API key" |}
  | None => inl {| exc_status_code := 403;
                   exc_detail := "Invalid or missing API key" |}
  end.





(** ** The library functions on the inputs of the examples

    The theorems on the crawl engine hold for every fetcher, parser and URL
    function.  The examples run the engine on small sites; for them the
    library functions are modelled on the URL and markup forms that these
    sites use. *)

Module Urllib.

Definition is_alpha (c : ascii) : bool :=
  let n := nat_of_ascii c in
  ((65 <=? n) && (n <=? 90) || (97 <=? n) && (n <=? 122))%nat.

(** The characters of a scheme: letters, digits, [+], [-] and [.]. *)
Definition is_scheme_char (c : ascii) : bool :=
  let n := nat_of_ascii c in
  (is_alpha c || (48 <=? n) && (n <=? 57) ||
   (n =? 43) || (n =? 45) || (n =? 46))%nat.

Fixpoint scan_scheme (s acc : string) : option (string * string) :=
  match s with
  | EmptyString => None
  | String c s' =>
      if Ascii.eqb c ":" then Some (acc, s')
      else if is_scheme_char c
           then scan_scheme s' (String.append acc (String c EmptyString))
           else None
  end.

(** The scheme of a URL and what follows its colon, as [urlsplit] finds
    them: the text before the first colon is a scheme when it starts with
    a letter and holds scheme characters only. *)
Definition split_scheme (url : string) : string * string :=
  match url with
  | EmptyString => (EmptyString, url)
  | String c _ =>
      if is_alpha c then
        match scan_scheme url EmptyString with
        | Some (scheme, rest) => (PyStr.lower scheme, rest)
        | None => (EmptyString, url)
        end
      else (EmptyString, url)
  end.

(** The text up to the first of [/], [?] and [#], and the rest. *)
Fixpoint split_host (s : string) : string * string :=
  match s with
  | EmptyString => (EmptyString, EmptyString)
  | String c s' =>
      if Ascii.eqb c "/" || Ascii.eqb c "?" || Ascii.eqb c "#"
      then (EmptyString, s)
      else let '(host, rest) := split_host s' in (String c host, rest)
  end.

(** The network location and what follows it; [None] is [urlsplit]'s
    [ValueError("Invalid IPv6 URL")], raised when the location holds one
    of the two square brackets without the other. *)
Definition split_netloc (rest : string) : option (string * string) :=
  match rest with
  | String "/" (String "/" r) =>
      let '(host, path) := split_host r in
      if xorb (PyStr.contains "[" host) (PyStr.contains "]" host)
      then None
      else Some (host, path)
  | _ => Some (EmptyString, rest)
  end.

(** [urlparse(url).netloc]. *)
Definition netloc (url : string) : option string :=
  match split_netloc (snd (split_scheme url)) with
  | Some (host, _) => Some host
  | None => None
  end.

(** The path up to its last [/]. *)
Fixpoint dirname (path : string) : string :=
  match path with
  | EmptyString => EmptyString
  | String c path' =>
      if PyStr.contains "/" path then String c (dirname path')
      else EmptyString
  end.

(** The path of what follows the network location: up to [?] or [#]. *)
Fixpoint path_of (s : string) : string :=
  match s with
  | EmptyString => EmptyString
  | String c s' =>
      if Ascii.eqb c "?" || Ascii.eqb c "#" then EmptyString
      else String c (path_of s')
  end.

(** [urljoin(base, href)] for an [href] that is a full URL, starts with
    [//], starts with [/] or is a path without dot segments; both
    arguments are parsed first, which may raise. *)
Definition urljoin (base href : string) : option string :=
  if bool_decide (href = EmptyString) then Some base
  else if bool_decide (base = EmptyString) then Some href
  else
    let '(bscheme, brest) := split_scheme base in
    let '(scheme, rest) := split_scheme href in
    match split_netloc brest, split_netloc rest with
    | Some (bhost, bpath), Some (host, path) =>
        if negb (bool_decide (scheme = EmptyString)) then Some href
        else if negb (bool_decide (host = EmptyString))
        then Some (String.append bscheme (String.append ":" href))
        else
          let root := String.append bscheme (String.append "://" bhost) in
          if PyStr.startswith "/" href then Some (String.append root href)
          else
            let dir := dirname (path_of bpath) in
            let dir := if bool_decide (dir = EmptyString) then "/" else dir in
            Some (String.append root (String.append dir href))
    | _, _ => None
    end.

End Urllib.

Module Markup.

(** A piece of a document: text, or what stands between [<] and [>]. *)
Inductive token :=
  | TText (s : string)
  | TTag (s : string).

Definition snoc (s : string) (c : ascii) : string :=
  String.append s (String c EmptyString).

Definition text_token (cur : string) : list token :=
  if bool_decide (cur = EmptyString) then [] else [TText cur].

(** [<] opens a tag when a letter or [/] follows it; otherwise it is
    text. *)
Definition opens_tag (s' : string) : bool :=
  match s' with
  | EmptyString => false
  | String d _ => Urllib.is_alpha d || Ascii.eqb d "/"
  end.

Fixpoint lex (s : string) (in_tag : bool) (cur : string) : list token :=
  match s with
  | EmptyString => if in_tag then [] else text_token cur
  | String c s' =>
      if in_tag then
        if Ascii.eqb c ">" then TTag cur :: lex s' false EmptyString
        else lex s' true (snoc cur c)
      else if Ascii.eqb c "<" && opens_tag s'
           then text_token cur ++ lex s' true EmptyString
           else lex s' false (snoc cur c)
  end.

(** The name of a tag, in lower case. *)
Fixpoint tag_word (s : string) : string :=
  match s with
  | EmptyString => EmptyString
  | String c s' =>
      if PyStr.is_space c || Ascii.eqb c "/" then EmptyString
      else String c (tag_word s')
  end.

Definition tag_name (t : string) : string :=
  match t with
  | String "/" t' => String "/" (PyStr.lower (tag_word t'))
  | _ => PyStr.lower (tag_word t)
  end.

Definition not_rendered (name : string) : bool :=
  bool_decide (name = "script") || bool_decide (name = "style") ||
  bool_decide (name = "noscript").

(** The text nodes that are left once the [script], [style] and
    [noscript] elements are removed; [hidden] is the end tag awaited. *)
Fixpoint text_nodes (ts : list token) (hidden : option string) : list string :=
  match ts with
  | [] => []
  | TText s :: ts' =>
      match hidden with
      | Some _ => text_nodes ts' hidden
      | None => s :: text_nodes ts' None
      end
  | TTag t :: ts' =>
      match hidden with
      | Some close =>
          if bool_decide (tag_name t = close) then text_nodes ts' None
          else text_nodes ts' hidden
      | None =>
          if not_rendered (tag_name t)
          then text_nodes ts' (Some (String "/" (tag_name t)))
          else text_nodes ts' None
      end
  end.

(** The character references of the markup characters. *)
Definition unescape (s : string) : string :=
  PyStr.replace (PyStr.replace (PyStr.replace s "&lt;" "<") "&gt;" ">")
    "&amp;" "&".

Fixpoint join (sep : string) (l : list string) : string :=
  match l with
  | [] => EmptyString
  | [s] => s
  | s :: l' => String.append s (String.append sep (join sep l'))
  end.

(** [soup.get_text(separator=" ")] after the three [decompose] loops. *)
Definition get_text (html : string) : string :=
  join " " (map unescape (text_nodes (lex html false EmptyString) None)).

(** The value of a quoted attribute: the text up to the closing quote. *)
Fixpoint until_quote (q : ascii) (s : string) : string :=
  match s with
  | EmptyString => EmptyString
  | String c s' => if Ascii.eqb c q then EmptyString
                   else String c (until_quote q s')
  end.

(** The value of the first [href='...'] of a tag. *)
Fixpoint href_value (t : string) : option string :=
  match t with
  | EmptyString => None
  | String _ t' =>
      if PyStr.startswith "href='" t
      then Some (until_quote "'" (PyStr.replace_scan "href='" "" 0 t))
      else href_value t'
  end.

Fixpoint anchors (ts : list token) : list string :=
  match ts with
  | [] => []
  | TText _ :: ts' => anchors ts'
  | TTag t :: ts' =>
      if bool_decide (tag_name t = "a")
      then match href_value t with
           | Some h => h :: anchors ts'
           | None => anchors ts'
           end
      else anchors ts'
  end.

(** [[a["href"] for a in soup.find_all("a", href=True)]]. *)
Definition find_all_a_href (html : string) : list string :=
  anchors (lex html false EmptyString).

(** The documents that the parser accepts.  The parser raises in a
    marked section [<![ ... ] whose keyword it does not know; the documents
    of the sites below hold no marked section, and a document that holds
    the characters [<![] is taken as one on which the parser raises. *)
Definition parses (html : string) : bool :=
  negb (PyStr.contains "<![" html).

(** An anchor element. *)
Definition a (href : string) : string :=
  String.append "<a href='" (String.append href "'>link</a>").

End Markup.


(** ** Small sites *)

Module Sites.

(** A static site answers each request from a table of its URLs; a URL
    that the table does not hold cannot be reached. *)
Fixpoint serve (site : list (string * fetch_result)) (history : list string)
    (url : string) : fetch_result :=
  match site with
  | [] => FetchRaises
  | (u, r) :: site' =>
      if bool_decide (u = url) then r else serve site' history url
  end.

(** A page that holds one anchor for each of [hrefs]. *)
Definition page (hrefs : list string) : fetch_result :=
  Response 200 (fold_right (fun h body => String.append (Markup.a h) body)
                  "<p>Fast delivery today</p>" hrefs).

(** The document that a site serves at a URL. *)
Definition body_of (site : list (string * fetch_result)) (url : string)
  : string :=
  match serve site [] url with
  | Response _ html => html
  | FetchRaises => EmptyString
  end.

(** The page at [url] is served, the parser accepts it, its anchors
    resolve, and those of the crawl's domain lead to URLs of [urls]. *)
Definition page_closed (site : list (string * fetch_result))
    (base_domain : string) (urls : list string) (url : string) : bool :=
  match serve site [] url with
  | Response status_code html =>
      (status_code =? 200) && Markup.parses html &&
      forallb
        (fun href =>
           match Urllib.urljoin url href with
           | Some link =>
               match Urllib.netloc link with
               | Some host =>
                   implb (same_domain base_domain (strip_www host))
                     (bool_decide (link ∈ urls))
               | None => false
               end
           | None => false
           end)
        (Markup.find_all_a_href html)
  | FetchRaises => false
  end.

(** The URLs of [urls] are pages of the site whose links stay in
    [urls]. *)
Definition site_closed (site : list (string * fetch_result))
    (base_domain : string) (urls : list string) : bool :=
  forallb (page_closed site base_domain urls) urls.

(** [run_crawl] on a static site, with the modelled parser and URL
    functions. *)
Definition crawl_state (site : list (string * fetch_result)) :=
  run_crawl_state (serve site) Markup.parses Markup.get_text Markup.find_all_a_href
    Urllib.urljoin Urllib.netloc.

Definition step_on (site : list (string * fetch_result)) :=
  step (serve site) Markup.parses Markup.get_text Markup.find_all_a_href
    Urllib.urljoin Urllib.netloc.

Definition crawl (site : list (string * fetch_result)) :=
  run_crawl (serve site) Markup.parses Markup.get_text Markup.find_all_a_href
    Urllib.urljoin Urllib.netloc.

(** Eleven pages, each of which links to the ten others. *)
Definition ring_urls : list string :=
  map (String.append "https://www.example.com/p")
    ["0"; "1"; "2"; "3"; "4"; "5"; "6"; "7"; "8"; "9"; "10"].

Definition ring : list (string * fetch_result) :=
  map (fun u => (u, page (filter (fun v => v <> u) ring_urls))) ring_urls.

(** The home page links to [/b] and [/c]; [/b] answers 404; [/c] links to
    [/b] again. *)
Definition retry_site : list (string * fetch_result) := [
  ("https://example.com/", page ["/b"; "/c"]);
  ("https://example.com/b", Response 404 "Not Found");
  ("https://example.com/c", page ["/b"])
].

(** The home page links to itself and to [/about]. *)
Definition self_link_site : list (string * fetch_result) := [
  ("https://example.com/", page ["https://example.com/"; "/about"]);
  ("https://example.com/about", page ["/"])
].

(** A page of [example.com] links to the host [example.www.com]. *)
Definition www_site : list (string * fetch_result) := [
  ("https://example.com/a", page ["https://example.www.com/c"]);
  ("https://example.www.com/c", page [])
].

(** A page one of whose anchors has a target with an unclosed bracket. *)
Definition bad_href_site : list (string * fetch_result) := [
  ("https://example.com/", page ["/about"; "//["]);
  ("https://example.com/about", page [])
].

(** A home page with a marked section that the parser does not know. *)
Definition bad_markup_site : list (string * fetch_result) := [
  ("https://example.com/", Response 200 "<p>ok</p><![x[ y")
].

End Sites.

(** ** What the specification says, in its words *)

(** [clamp(x, lo, hi)]. *)
Definition clamp (x lo hi : Z) : Z :=
  if x <? lo then lo else if hi <? x then hi else x.

(** Two word lists are disjoint: no word of the first is in the second. *)
Definition disjoint_words (l1 l2 : list string) : Prop :=
  Forall (fun w => w ∉ l2) l1.

(** The three word lists of a persona are pairwise disjoint. *)
Definition pairwise_disjoint (p : Persona) : Prop :=
  disjoint_words (positive p) (negative p) /\
  disjoint_words (positive p) (proof p) /\
  disjoint_words (negative p) (proof p).

(** A host without its leading [www.], when it has one. *)
Definition strip_leading_www (host : string) : string :=
  match host with
  | String "w" (String "w" (String "w" (String "." rest))) => rest
  | _ => host
  end.

(** The link filter of the specification: the hosts are compared once a
    leading [www.] is taken off each. *)
Definition accepts_leading (base_host link_host : string) : bool :=
  bool_decide (strip_leading_www link_host = "") ||
  bool_decide (strip_leading_www link_host = strip_leading_www base_host).

(** The suggestion of an issue for a persona, when the table has one. *)
Definition table_entry (pname issue : string) : option string :=
  match RECOMMENDATIONS !! pname with
  | Some table => table !! issue
  | None => None
  end.

(** * Theorems *)

(** ** The model on small inputs *)

Example count_examples :
  PyStr.count "fixer fixer" "fix" = 2 /\ PyStr.count "aaaa" "aa" = 2 /\
  PyStr.count "abc" "" = 4.
Proof. repeat split; reflexivity. Qed.

Example replace_examples :
  PyStr.replace "www.example.com" "www." "" = "example.com" /\
  PyStr.replace "example.www.com" "www." "" = "example.com" /\
  PyStr.replace "abc" "" "-" = "-a-b-c-".
Proof. repeat split; reflexivity. Qed.

Example normalize_example :
  PyStr.lower (PyStr.re_sub_ws "  Hello   World ") = " hello world ".
Proof. vm_compute. reflexivity. Qed.

Example detect_page_type_examples :
  detect_page_type "https://shop.example.com/" = "Homepage / Landing" /\
  detect_page_type "https://shop.example.com/products/widget" = "Product Page" /\
  detect_page_type "https://shop.example.com/about/team/history" = "Other".
Proof. repeat split; vm_compute; reflexivity. Qed.

Example diagnose_example :
  diagnose 30 0 1 0
  = ["overall_low"; "missing_proof"; "weak_language"; "conflicting_language"].
Proof. reflexivity. Qed.

Example urllib_examples :
  Urllib.netloc "https://www.example.com/a" = Some "www.example.com" /\
  Urllib.netloc "/a/b" = Some "" /\
  Urllib.netloc "//[" = None /\
  Urllib.urljoin "https://www.example.com/a" "//www.example.com/b"
  = Some "https://www.example.com/b" /\
  Urllib.urljoin "https://www.example.com/a" "https://other.com/c"
  = Some "https://other.com/c" /\
  Urllib.urljoin "https://www.example.com/a/b" "c"
  = Some "https://www.example.com/a/c" /\
  Urllib.urljoin "https://www.example.com/a" "//[" = None.
Proof. repeat split; vm_compute; reflexivity. Qed.

Example markup_examples :
  Markup.get_text
    "<p>Hi &lt;b&gt; <b>x</b></p><script>var a;</script><a href='/x'>y</a>z"
  = "Hi <b>  x y z" /\
  Markup.find_all_a_href
    "<p><a href='/x'>y</a> <A class='k' href='//[' >z</a><a name='q'>"
  = ["/x"; "//["] /\
  Markup.get_text "a < b" = "a < b".
Proof. repeat split; vm_compute; reflexivity. Qed.

(** ** The scorer *)

Lemma fold_left_add_from (f : string -> Z) (l : list string) (a : Z) :
  fold_left (fun acc w => acc + f w) l a = a + fold_right Z.add 0 (map f l).
Proof.
  revert a. induction l as [|w l IH]; intros a; simpl.
  - lia.
  - rewrite IH. lia.
Qed.

Lemma count_hits_sum text words :
  count_hits text words = fold_right Z.add 0 (map (PyStr.count text) words).
Proof. unfold count_hits. rewrite fold_left_add_from. lia. Qed.

(** C3: the score is the raw score clamped to [0, 100], so it lies between
    0 and 100, both included, whatever the hit counts are. *)
Theorem score_persona_clamped (text : string) (persona : Persona) :
  let s := score_persona text persona in
  score s =
    clamp (positive_hits s * 3 + proof_hits s * 5 - negative_hits s * 4) 0 100 /\
  positive_hits s = count_hits text (positive persona) /\
  negative_hits s = count_hits text (negative persona) /\
  proof_hits s = count_hits text (proof persona) /\
  0 <= score s <= 100.
Proof.
  simpl. unfold clamp. repeat split; try lia.
  destruct (Z.ltb_spec (count_hits text (positive persona) * 3 +
                        count_hits text (proof persona) * 5 -
                        count_hits text (negative persona) * 4) 0);
  destruct (Z.ltb_spec 100 (count_hits text (positive persona) * 3 +
                        count_hits text (proof persona) * 5 -
                        count_hits text (negative persona) * 4)); lia.
Qed.

(** Both bounds are reached. *)
Example score_bounds_reached :
  score (score_persona "maybe maybe" (snd (nth 0 PERSONAS ("", Build_Persona [] [] [])))) = 0 /\
  score (score_persona
           "guarantee guarantee guarantee guarantee guarantee guarantee guarantee guarantee guarantee guarantee guarantee guarantee guarantee"
           (snd (nth 0 PERSONAS ("", Build_Persona [] [] [])))) = 100.
Proof. split; vm_compute; reflexivity. Qed.

(** ** The configuration tables *)

(** C7, as stated, fails: the positive and the proof list of the first
    persona share a word. *)
Lemma personas_not_pairwise_disjoint :
  ~ Forall (fun item => pairwise_disjoint (snd item)) PERSONAS.
Proof.
  intros H. apply Forall_cons_1 in H as [[_ [H _]] _].
  simpl in H. apply Forall_forall with (x := "guarantee") in H.
  - apply H. set_solver.
  - set_solver.
Qed.

(** C7, amended: in every persona the negative list is disjoint from the
    positive list and from the proof list, while the positive and the proof
    list share a word. *)
Theorem personas_negative_disjoint :
  Forall (fun item =>
            disjoint_words (negative (snd item)) (positive (snd item)) /\
            disjoint_words (negative (snd item)) (proof (snd item)) /\
            exists w, w ∈ positive (snd item) /\ w ∈ proof (snd item))
         PERSONAS.
Proof.
  unfold PERSONAS, disjoint_words.
  repeat apply Forall_cons_2; try apply Forall_nil_2; simpl;
    (split; [|split]);
    try (repeat apply Forall_cons_2; try apply Forall_nil_2;
         intros H; repeat (apply elem_of_cons in H as [H|H]; [discriminate|]);
         by apply elem_of_nil in H).
  - exists "today". set_solver.
  - exists "reviews". set_solver.
  - exists "results". set_solver.
  - exists "story". set_solver.
  - exists "save". set_solver.
Qed.

(** ** The recommendation mapper *)

Lemma suggest_loop (table : gmap string string) (issues acc : list string) :
  fold_left
    (fun suggestions issue =>
       match table !! issue with
       | Some text => suggestions ++ [text]
       | None => suggestions
       end) issues acc
  = acc ++ omap (fun issue => table !! issue) issues.
Proof.
  revert acc. induction issues as [|i issues IH]; intros acc; simpl.
  - by rewrite app_nil_r.
  - rewrite IH. destruct (table !! i); simpl; [|done].
    by rewrite <- app_assoc.
Qed.

Lemma omap_length_le {A B} (f : A -> option B) (l : list A) :
  (length (omap f l) <= length l)%nat.
Proof.
  induction l as [|x l IH]; [done|].
  change (omap f (x :: l))
    with (match f x with Some y => y :: omap f l | None => omap f l end).
  destruct (f x); simpl length; lia.
Qed.

(** C8: the suggestions are, in the order of the issues, the table entries
    of the issues that have one; an issue without an entry and a persona
    without a table add nothing, so the list may be shorter than the issue
    list. *)
Theorem suggest_in_issue_order (pname : string) (issues : list string) :
  suggest pname issues = omap (table_entry pname) issues /\
  (length (suggest pname issues) <= length issues)%nat /\
  match RECOMMENDATIONS !! pname with
  | None => suggest pname issues = []
  | Some table =>
      length (suggest pname issues)
      = length (filter (fun issue => is_Some (table !! issue)) issues)
  end.
Proof.
  assert (E : suggest pname issues = omap (table_entry pname) issues).
  { unfold suggest, table_entry. destruct (RECOMMENDATIONS !! pname) as [t|].
    - by rewrite suggest_loop.
    - induction issues as [|i issues IH]; [done|]. simpl. exact IH. }
  split; [exact E|]. split.
  - rewrite E. apply omap_length_le.
  - unfold suggest. destruct (RECOMMENDATIONS !! pname) as [t|]; [|done].
    rewrite suggest_loop. simpl. clear E.
    induction issues as [|i issues IH]; [done|].
    rewrite filter_cons.
    change (omap (fun issue => t !! issue) (i :: issues))
      with (match t !! i with
            | Some y => y :: omap (fun issue => t !! issue) issues
            | None => omap (fun issue => t !! issue) issues
            end).
    destruct (decide (is_Some (t !! i))) as [[x Hx]|Hn].
    + rewrite Hx. simpl. by rewrite IH.
    + apply eq_None_not_Some in Hn. by rewrite Hn.
Qed.

(** An issue without an entry is passed over and the order is kept. *)
Example suggest_skips :
  suggest "Explorer" ["overall_low"; "conflicting_language"; "weak_language"]
  = ["Add storytelling or brand narrative elements.";
     "Use curiosity-driven language like 'discover why'."] /\
  suggest "Nobody" ["overall_low"] = [].
Proof. split; vm_compute; reflexivity. Qed.

(** ** Counting substrings *)

Section Occurrences.

Variable w : string.
Hypothesis w_nonempty : w <> EmptyString.

Lemma occurs_at_empty_text p : PyStr.occurs_at w EmptyString p = false.
Proof. destruct p; destruct w; simpl; congruence. Qed.

Lemma length_word_pos : (1 <= String.length w)%nat.
Proof. destruct w; simpl; [congruence|lia]. Qed.

Lemma disjoint_occs_weaken s lo lo' ps :
  (lo' <= lo)%nat -> PyStr.disjoint_occs w s lo ps ->
  PyStr.disjoint_occs w s lo' ps.
Proof. destruct ps; simpl; [done|]. intros ? (? & ? & ?). repeat split; [lia|done..]. Qed.

(** A family from index 1 on is a family of the tail. *)
Lemma disjoint_occs_tail c s lo ps :
  PyStr.disjoint_occs w (String c s) (S lo) ps ->
  PyStr.disjoint_occs w s lo (map Nat.pred ps).
Proof.
  revert lo. induction ps as [|p ps IH]; intros lo; simpl; [done|].
  intros (Hlo & Hocc & Hrest). destruct p as [|p]; [lia|]. simpl in *.
  repeat split; [lia|done|]. by apply IH.
Qed.

Lemma disjoint_occs_cons c s lo ps :
  PyStr.disjoint_occs w s lo ps ->
  PyStr.disjoint_occs w (String c s) (S lo) (map S ps).
Proof.
  revert lo. induction ps as [|p ps IH]; intros lo; simpl; [done|].
  intros (Hlo & Hocc & Hrest). repeat split; [lia|done|].
  by apply (IH (p + String.length w)%nat).
Qed.

Lemma count_scan_nonneg s skip : 0 <= PyStr.count_scan w skip s.
Proof.
  revert skip. induction s as [|c s IH]; intros skip; simpl; [lia|].
  destruct skip; [|apply IH].
  destruct (PyStr.startswith w (String c s)); [|apply IH].
  specialize (IH (String.length w - 1)%nat). lia.
Qed.

(** No family has more members than the scan counts: after the first
    match of the scan, every other member of a family starts behind it. *)
Lemma count_scan_bound s skip ps :
  PyStr.disjoint_occs w s skip ps ->
  Z.of_nat (length ps) <= PyStr.count_scan w skip s.
Proof.
  revert skip ps. induction s as [|c s IH]; intros skip ps H.
  - destruct ps as [|p ps]; [simpl; lia|].
    cbn [PyStr.disjoint_occs] in H.
    destruct H as (_ & H & _). by rewrite occurs_at_empty_text in H.
  - destruct skip as [|k]; simpl.
    + destruct (PyStr.startswith w (String c s)) eqn:E.
      * destruct ps as [|p ps].
        { pose proof (count_scan_nonneg s (String.length w - 1)). simpl. lia. }
        destruct H as (_ & _ & H). pose proof length_word_pos.
        apply disjoint_occs_weaken with (lo' := S (String.length w - 1)) in H;
          [|lia].
        apply disjoint_occs_tail, IH in H. rewrite length_map in H.
        simpl length. lia.
      * assert (H1 : PyStr.disjoint_occs w (String c s) 1 ps).
        { destruct ps as [|p ps]; simpl in *; [done|].
          destruct H as (_ & Hocc & H). repeat split; [|done..].
          destruct p; [simpl in Hocc; congruence|lia]. }
        apply disjoint_occs_tail, IH in H1. by rewrite length_map in H1.
    + apply disjoint_occs_tail, IH in H. by rewrite length_map in H.
Qed.

(** The matches of the scan are a family. *)
Lemma count_scan_reached s skip :
  exists ps, PyStr.disjoint_occs w s skip ps /\
             PyStr.count_scan w skip s = Z.of_nat (length ps).
Proof.
  revert skip. induction s as [|c s IH]; intros skip.
  - by exists [].
  - destruct skip as [|k]; simpl.
    + destruct (PyStr.startswith w (String c s)) eqn:E.
      * destruct (IH (String.length w - 1)%nat) as (ps & Hps & Hn).
        exists (0%nat :: map S ps). split.
        { cbn [PyStr.disjoint_occs PyStr.occurs_at].
          split; [lia|]. split; [exact E|].
          apply disjoint_occs_cons with (c := c) in Hps.
          pose proof length_word_pos.
          by replace (S (String.length w - 1)) with (String.length w) in Hps
            by lia. }
        simpl length. rewrite length_map. lia.
      * destruct (IH 0%nat) as (ps & Hps & Hn).
        exists (map S ps). split; [|by rewrite length_map].
        apply disjoint_occs_weaken with (lo := 1%nat); [lia|].
        by apply disjoint_occs_cons.
    + destruct (IH k) as (ps & Hps & Hn).
      exists (map S ps). split; [|by rewrite length_map].
      by apply disjoint_occs_cons.
Qed.

End Occurrences.

(** [s.count(w)] is the number of non-overlapping occurrences. *)
Lemma count_occurrence_number s w : PyStr.occurrence_number s w (PyStr.count s w).
Proof.
  destruct w as [|a w]; [done|].
  assert (Hw : String a w <> EmptyString) by done.
  destruct (count_scan_reached _ Hw s 0) as (ps & Hps & Hn).
  exists ps. repeat split; [done..|].
  intros qs Hqs. apply (count_scan_bound _ Hw) in Hqs.
  unfold PyStr.count in *. lia.
Qed.

(** That number is unique. *)
Lemma occurrence_number_unique s w n m :
  PyStr.occurrence_number s w n -> PyStr.occurrence_number s w m -> n = m.
Proof.
  destruct w as [|a w]; simpl; [congruence|].
  intros (ps & Hps & -> & Hmax) (qs & Hqs & -> & Hmax').
  apply Hmax in Hqs. apply Hmax' in Hps. lia.
Qed.

(** C2: the hit count is the sum, over the words of the list, of the
    number of non-overlapping occurrences of the word as a substring of the
    text, a number that [text.count(w)] computes and that is unique; the
    text "fixer fixer" scored against the positive list ["fix"] has two
    positive hits. *)
Theorem count_hits_sums_occurrences (text : string) (words : list string) :
  Forall2 (PyStr.occurrence_number text) words (map (PyStr.count text) words) /\
  count_hits text words = fold_right Z.add 0 (map (PyStr.count text) words) /\
  (forall ns, Forall2 (PyStr.occurrence_number text) words ns ->
              count_hits text words = fold_right Z.add 0 ns) /\
  positive_hits
    (score_persona "fixer fixer"
       {| positive := ["fix"]; negative := []; proof := [] |}) = 2.
Proof.
  assert (F : Forall2 (PyStr.occurrence_number text) words
                (map (PyStr.count text) words)).
  { induction words as [|x words IH]; simpl; constructor; [|done].
    apply count_occurrence_number. }
  split; [exact F|]. split; [apply count_hits_sum|]. split; [|reflexivity].
  intros ns Hns. rewrite count_hits_sum. clear F.
  induction Hns as [|x n words ns Hn Hns IH]; simpl; [done|].
  rewrite IH.
  by rewrite (occurrence_number_unique _ _ _ _ Hn (count_occurrence_number text x)).
Qed.

(** ** The text normalizer *)

Lemma is_space_lower_char c : PyStr.is_space (PyStr.lower_char c) = PyStr.is_space c.
Proof. destruct c as [[] [] [] [] [] [] [] []]; reflexivity. Qed.

Lemma lower_char_idempotent c :
  PyStr.lower_char (PyStr.lower_char c) = PyStr.lower_char c.
Proof. destruct c as [[] [] [] [] [] [] [] []]; reflexivity. Qed.

Lemma lower_idempotent s : PyStr.lower (PyStr.lower s) = PyStr.lower s.
Proof.
  induction s as [|c s IH]; simpl; [done|].
  by rewrite lower_char_idempotent, IH.
Qed.

Lemma collapse_ws_lower b s :
  PyStr.collapse_ws b (PyStr.lower s) = PyStr.lower (PyStr.collapse_ws b s).
Proof.
  revert b. induction s as [|c s IH]; intros b; simpl; [done|].
  rewrite is_space_lower_char.
  destruct (PyStr.is_space c); [destruct b|]; simpl; by rewrite IH.
Qed.

(** Collapsed text has no white space to collapse. *)
Lemma collapse_ws_idempotent s :
  (forall b, PyStr.collapse_ws false (PyStr.collapse_ws b s) = PyStr.collapse_ws b s) /\
  PyStr.collapse_ws true (PyStr.collapse_ws true s) = PyStr.collapse_ws true s.
Proof.
  induction s as [|c s [IH1 IH2]]; simpl; [done|].
  destruct (PyStr.is_space c) eqn:E.
  - split; [intros [|]|]; simpl; try done.
    change (PyStr.is_space " ") with true. simpl. by rewrite IH2.
  - split; [intros b|]; simpl; rewrite E; by rewrite IH1.
Qed.

(** Collapsing white space and lowering is idempotent. *)
Lemma normalize_idempotent s :
  PyStr.lower (PyStr.re_sub_ws (PyStr.lower (PyStr.re_sub_ws s)))
  = PyStr.lower (PyStr.re_sub_ws s).
Proof.
  unfold PyStr.re_sub_ws. rewrite collapse_ws_lower, lower_idempotent.
  by rewrite (proj1 (collapse_ws_idempotent s)).
Qed.

(** C10, as stated, fails: markup that a document writes with character
    references is text after one pass and is parsed as markup by the
    next. *)
Lemma clean_text_not_idempotent :
  clean_text Markup.get_text
    (clean_text Markup.get_text "&lt;b&gt;hi&lt;/b&gt;")
  <> clean_text Markup.get_text "&lt;b&gt;hi&lt;/b&gt;".
Proof. vm_compute. discriminate. Qed.

(** C10, amended: the output of [clean_text] is a fixed point of
    [clean_text] when the parser gives that output back as its text. *)
Theorem clean_text_fixed_point (get_text : string -> string) (html : string) :
  get_text (clean_text get_text html) = clean_text get_text html ->
  clean_text get_text (clean_text get_text html) = clean_text get_text html.
Proof.
  intros H. unfold clean_text at 1. rewrite H. unfold clean_text.
  apply normalize_idempotent.
Qed.

Lemma clean_text_fixed_point_witness :
  Markup.get_text
    (clean_text Markup.get_text "<p>Fast   <b>Delivery</b></p> <style>p {}</style>")
  = clean_text Markup.get_text "<p>Fast   <b>Delivery</b></p> <style>p {}</style>" /\
  clean_text Markup.get_text
    (clean_text Markup.get_text "<p>Fast   <b>Delivery</b></p> <style>p {}</style>")
  = clean_text Markup.get_text "<p>Fast   <b>Delivery</b></p> <style>p {}</style>".
Proof.
  split; [vm_compute; reflexivity|].
  apply (clean_text_fixed_point Markup.get_text
           "<p>Fast   <b>Delivery</b></p> <style>p {}</style>").
  vm_compute. reflexivity.
Defined.

(** ** The crawl engine *)

Lemma initial_size start_url : size (visited (initial start_url)) = 0%nat.
Proof. apply size_empty. Qed.

Section CrawlFacts.

Variable http_get : list string -> string -> fetch_result.
Variable parses : string -> bool.
Variable get_text : string -> string.
Variable find_all_a_href : string -> list string.
Variable urljoin : string -> string -> option string.
Variable netloc : string -> option string.

(** Unfolding the body of the loop. *)
Ltac unfold_step := unfold step.

Local Abbreviation discover := (discover urljoin netloc).
Local Abbreviation step := (step http_get parses get_text find_all_a_href urljoin netloc).
Local Abbreviation crawl_loop :=
  (crawl_loop http_get parses get_text find_all_a_href urljoin netloc).
Local Abbreviation reaches :=
  (reaches http_get parses get_text find_all_a_href urljoin netloc).
Local Abbreviation resolves := (resolves urljoin netloc).
Local Abbreviation links_to := (links_to find_all_a_href urljoin netloc).
Local Abbreviation links_resolve := (links_resolve find_all_a_href urljoin netloc).
Local Abbreviation page_reachable :=
  (page_reachable find_all_a_href urljoin netloc).

(** *** Link discovery *)

(** What the loop over the anchors appends: the links of the crawl's
    domain that are not in the visited set. *)
Lemma discover_appends base_domain url seen hrefs queue queue' :
  discover base_domain url seen hrefs queue = Some queue' ->
  exists added,
    queue' = queue ++ added /\
    forall link, link ∈ added <->
      ((link ∉ seen) /\
       exists href, href ∈ hrefs /\ resolves base_domain url href link).
Proof.
  revert queue. induction hrefs as [|href hrefs IH]; intros queue; simpl.
  - intros [= <-]. exists []. split; [by rewrite app_nil_r|].
    intros link. split; [by intros ?%elem_of_nil|].
    by intros (_ & ? & ?%elem_of_nil & _).
  - destruct (urljoin url href) as [link0|] eqn:Ej; [|done].
    destruct (netloc link0) as [host0|] eqn:En; [|done].
    destruct (same_domain base_domain (strip_www host0)) eqn:Ed;
      [destruct (bool_decide (link0 ∈ seen)) eqn:Es|].
    + apply bool_decide_eq_true in Es.
      intros (added & -> & Hadd)%IH. exists added. split; [done|].
      intros link. rewrite Hadd. split.
      * intros (? & h & ? & ?). split; [done|]. exists h. split; [by right|done].
      * intros (Hs & h & [->|Hh]%elem_of_cons & host & Hj & Hn & Hd).
        { rewrite Ej in Hj. by injection Hj as ->. }
        split; [done|]. exists h. split; [done|]. by exists host.
    + apply bool_decide_eq_false in Es.
      intros (added & -> & Hadd)%IH. exists (link0 :: added).
      split; [by rewrite <- app_assoc|].
      intros link. rewrite elem_of_cons, Hadd. split.
      * intros [->|(? & h & ? & ?)].
        { split; [done|]. exists href. split; [by left|]. by exists host0. }
        split; [done|]. exists h. split; [by right|done].
      * intros (Hs & h & [->|Hh]%elem_of_cons & host & Hj & Hn & Hd).
        { left. rewrite Ej in Hj. by injection Hj. }
        right. split; [done|]. exists h. split; [done|]. by exists host.
    + intros (added & -> & Hadd)%IH. exists added. split; [done|].
      intros link. rewrite Hadd. split.
      * intros (? & h & ? & ?). split; [done|]. exists h. split; [by right|done].
      * intros (Hs & h & [->|Hh]%elem_of_cons & host & Hj & Hn & Hd).
        { rewrite Ej in Hj. injection Hj as ->. congruence. }
        split; [done|]. exists h. split; [done|]. by exists host.
Qed.

(** The loop over the anchors raises exactly when an anchor does not
    resolve. *)
Lemma discover_returns base_domain url seen hrefs queue :
  (forall href, href ∈ hrefs ->
     exists link host, urljoin url href = Some link /\ netloc link = Some host) ->
  is_Some (discover base_domain url seen hrefs queue).
Proof.
  revert queue. induction hrefs as [|href hrefs IH]; intros queue H; simpl.
  - by eexists.
  - destruct (H href) as (link & host & -> & ->); [by left|].
    assert (H' : forall h, h ∈ hrefs ->
      exists link host, urljoin url h = Some link /\ netloc link = Some host).
    { intros h Hh. apply H. by right. }
    destruct (same_domain _ _); [destruct (bool_decide _)|]; by apply IH.
Qed.

Lemma discover_raises base_domain url seen hrefs queue :
  discover base_domain url seen hrefs queue = None ->
  exists href, href ∈ hrefs /\
    (urljoin url href = None \/
     exists link, urljoin url href = Some link /\ netloc link = None).
Proof.
  revert queue. induction hrefs as [|href hrefs IH]; intros queue; simpl; [done|].
  destruct (urljoin url href) as [link|] eqn:Ej.
  - destruct (netloc link) as [host|] eqn:En.
    + intros H.
      assert (H' : exists q, discover base_domain url seen hrefs q = None).
      { destruct (same_domain _ _); [destruct (bool_decide _)|]; eauto. }
      destruct H' as (q & (h & Hh & Hbad)%IH). exists h. split; [by right|done].
    + intros _. exists href. split; [by left|]. right. by exists link.
  - intros _. exists href. split; [by left|by left].
Qed.

(** *** The turns of the loop *)

Section Turns.

Variable base_domain : string.
Variable max_pages : Z.

Local Abbreviation step' := (step base_domain max_pages).

(** The three ways in which a turn leads to another turn: the URL taken
    from the queue is in the visited set; its fetch fails; or the page is
    processed. *)
Lemma step_next st st' :
  step' st = Next st' ->
  exists url rest,
    queue st = url :: rest /\ Z.of_nat (size (visited st)) < max_pages /\
    ((url ∈ visited st /\
      st' = {| visited := visited st; queue := rest; pages := pages st;
               requests := requests st |}) \/
     ((url ∉ visited st) /\ fetch_fails (http_get (requests st) url) /\
      st' = {| visited := visited st; queue := rest; pages := pages st;
               requests := requests st ++ [url] |}) \/
     ((url ∉ visited st) /\
      exists html queue',
        http_get (requests st) url = Response 200 html /\
        parses html = true /\
        discover base_domain url (visited st ∪ {[url]})
          (find_all_a_href html) rest = Some queue' /\
        st' = {| visited := visited st ∪ {[url]}; queue := queue';
                 pages := pages st ++ [make_page_info url (clean_text get_text html)];
                 requests := requests st ++ [url] |})).
Proof.
  unfold_step. destruct (queue st) as [|url rest]; [done|].
  case_bool_decide as Hb; [|done]. intros H. exists url, rest.
  split; [done|]. split; [done|].
  case_bool_decide as Hv.
  - left. split; [done|]. by injection H.
  - right. destruct (http_get (requests st) url) as [|code html] eqn:Eg.
    + left. split; [done|]. split; [done|]. by injection H.
    + destruct (Z.eqb_spec code 200) as [->|Hc]; simpl in H.
      * right. split; [done|]. exists html.
        destruct (parses html); [|done]. simpl in H.
        destruct (discover _ _ _ _ _) as [q|]; [|done].
        exists q. split; [done|]. split; [done|]. split; [done|].
        by injection H.
      * left. split; [done|]. split; [done|]. by injection H.
Qed.

(** The loop is left exactly when the queue is empty or the visited set
    has reached the budget. *)
Lemma step_done st :
  step' st = Done <->
  queue st = [] \/ max_pages <= Z.of_nat (size (visited st)).
Proof.
  unfold_step. destruct (queue st) as [|url rest].
  - split; [by left|done].
  - case_bool_decide as Hb.
    + split; [|intros [?|?]; [done|lia]].
      case_bool_decide; [done|].
      destruct (http_get _ _) as [|code html]; [done|].
      destruct (negb _); [done|]. destruct (negb _); [done|].
      by destruct (discover _ _ _ _ _).
    + split; [|done]. intros _. right. lia.
Qed.

(** An exception leaves the loop only after a successful fetch, when the
    parser raises on the document or an anchor of the page does not
    resolve. *)
Lemma step_raises st :
  step' st = Raises ->
  exists url rest html,
    queue st = url :: rest /\ (url ∉ visited st) /\
    http_get (requests st) url = Response 200 html /\
    (parses html = false \/
     exists href,
       href ∈ find_all_a_href html /\
       (urljoin url href = None \/
        exists link, urljoin url href = Some link /\ netloc link = None)).
Proof.
  unfold_step. destruct (queue st) as [|url rest]; [done|].
  case_bool_decide; [|done]. case_bool_decide as Hv; [done|].
  destruct (http_get (requests st) url) as [|code html] eqn:Eg; [done|].
  destruct (Z.eqb_spec code 200) as [->|Hc]; simpl; [|done].
  destruct (parses html) eqn:Ep; simpl.
  - destruct (discover _ _ _ _ _) eqn:Ed; [done|]. intros _.
    apply discover_raises in Ed as (href & Hh & Hbad).
    exists url, rest, html. repeat split; try done. right. by exists href.
  - intros _. exists url, rest, html. repeat split; try done. by left.
Qed.

(** A turn whose fetch fails only takes the URL off the queue and notes
    the request. *)
Lemma step_fetch_fails st url rest :
  queue st = url :: rest -> Z.of_nat (size (visited st)) < max_pages ->
  url ∉ visited st -> fetch_fails (http_get (requests st) url) ->
  step' st = Next {| visited := visited st; queue := rest; pages := pages st;
                     requests := requests st ++ [url] |}.
Proof.
  intros Hq Hb Hv Hf. unfold_step. rewrite Hq.
  rewrite bool_decide_eq_true_2 by done.
  rewrite bool_decide_eq_false_2 by done.
  destruct (http_get _ _) as [|code html]; [done|]. simpl in Hf.
  destruct (Z.eqb_spec code 200); [done|]. done.
Qed.

(** A URL of the visited set is taken off the queue without a request. *)
Lemma step_visited st url rest :
  queue st = url :: rest -> Z.of_nat (size (visited st)) < max_pages ->
  url ∈ visited st ->
  step' st = Next {| visited := visited st; queue := rest; pages := pages st;
                     requests := requests st |}.
Proof.
  intros Hq Hb Hv. unfold_step. rewrite Hq.
  rewrite bool_decide_eq_true_2 by done.
  by rewrite bool_decide_eq_true_2 by done.
Qed.

Local Abbreviation reaches' := (reaches base_domain max_pages).
Local Abbreviation crawl_loop' := (crawl_loop base_domain max_pages).

Lemma reaches_trans st0 st1 st2 :
  reaches' st0 st1 -> reaches' st1 st2 -> reaches' st0 st2.
Proof. induction 2; [done|]. by eapply reaches_next. Qed.

(** Each processed page adds one URL to the visited set and one page to
    the result, and the visited set stays within the budget. *)
Lemma reaches_budget st0 st :
  reaches' st0 st ->
  length (pages st0) = size (visited st0) ->
  Z.of_nat (size (visited st0)) <= max_pages ->
  length (pages st) = size (visited st) /\
  Z.of_nat (size (visited st)) <= max_pages.
Proof.
  intros Hr H0 H1. induction Hr as [|st st' Hr [IHp IHb] Hs]; [done|].
  apply step_next in Hs
    as (url & rest & Hq & Hb &
        [(Hv & ->)|[(Hv & Hf & ->)|(Hv & html & q' & Hg & Hok & Hd & ->)]]);
    simpl; [done..|].
  rewrite length_app, size_union, size_singleton by set_solver.
  simpl. lia.
Qed.

(** The visited set and the request log only grow, and a URL of the
    visited set is not requested again. *)
Lemma reaches_requests st st' :
  reaches' st st' ->
  visited st ⊆ visited st' /\
  exists extra, requests st' = requests st ++ extra /\
                forall url, url ∈ visited st -> url ∉ extra.
Proof.
  induction 1 as [|st' st'' Hr (Hsub & extra & He & Hn) Hs].
  - split; [done|]. exists []. split; [by rewrite app_nil_r|].
    intros url _. apply not_elem_of_nil.
  - apply step_next in Hs
      as (url & rest & Hq & Hb &
          [(Hv & ->)|[(Hv & Hf & ->)|(Hv & html & q' & Hg & Hok & Hd & ->)]]);
      simpl.
    + split; [done|]. by exists extra.
    + split; [done|]. exists (extra ++ [url]).
      split; [by rewrite He, app_assoc|].
      intros u Hu [Hx|Hx]%elem_of_app; [by eapply Hn|].
      apply list_elem_of_singleton in Hx as ->. apply Hv. by apply Hsub.
    + split; [set_solver|]. exists (extra ++ [url]).
      split; [by rewrite He, app_assoc|].
      intros u Hu [Hx|Hx]%elem_of_app; [by eapply Hn|].
      apply list_elem_of_singleton in Hx as ->. apply Hv. by apply Hsub.
Qed.

(** The loop ends: each turn either shortens the queue or uses one unit
    of the budget. *)
Lemma crawl_loop_terminates st :
  exists fuel out, crawl_loop' fuel st = Some out.
Proof.
  assert (H : forall b q st,
    (Z.to_nat (max_pages - Z.of_nat (size (visited st))) <= b)%nat ->
    (length (queue st) <= q)%nat ->
    exists fuel out, crawl_loop' fuel st = Some out).
  { clear st. induction b as [|b IHb]; induction q as [|q IHq];
      intros st Hb Hq;
      (destruct (step' st) as [|st'|] eqn:Es;
       [exists 0%nat; eexists; simpl; by rewrite Es
       | |exists 0%nat; eexists; simpl; by rewrite Es]);
      apply step_next in Es as Hn;
      destruct Hn as (url & rest & Hqu & Hlt & Hcases);
      try lia; try (rewrite Hqu in Hq; simpl in Hq; lia).
    assert (Hfuel : exists fuel out, crawl_loop' fuel st' = Some out).
    { destruct Hcases
        as [(Hv & ->)|[(Hv & Hf & ->)|(Hv & html & q' & Hg & Hok & Hd & ->)]].
      - apply IHq; simpl; [done|]. rewrite Hqu in Hq. simpl in Hq. lia.
      - apply IHq; simpl; [done|]. rewrite Hqu in Hq. simpl in Hq. lia.
      - apply (IHb (length q')); simpl; [|done].
        rewrite size_union, size_singleton by set_solver. lia. }
    destruct Hfuel as (fuel & out & Hfuel).
    exists (S fuel), out. simpl. by rewrite Es. }
  by eapply H.
Qed.

Lemma crawl_loop_returns fuel st final :
  crawl_loop' fuel st = Some (Returns final) ->
  reaches' st final /\ step' final = Done.
Proof.
  revert st. induction fuel as [|fuel IH]; intros st; simpl;
    destruct (step' st) as [|st'|] eqn:Es; try done.
  - intros [= <-]. split; [constructor|done].
  - intros [= <-]. split; [constructor|done].
  - intros [Hr Hd]%IH. split; [|done].
    eapply reaches_trans; [|exact Hr]. eapply reaches_next; [constructor|done].
Qed.

Lemma crawl_loop_raises fuel st :
  crawl_loop' fuel st = Some RaisesError ->
  exists st', reaches' st st' /\ step' st' = Raises.
Proof.
  revert st. induction fuel as [|fuel IH]; intros st; simpl;
    destruct (step' st) as [|st'|] eqn:Es; try done.
  - intros _. exists st. split; [constructor|done].
  - intros (st'' & Hr & Hs)%IH. exists st''. split; [|done].
    eapply reaches_trans; [|exact Hr]. eapply reaches_next; [constructor|done].
  - intros _. exists st. split; [constructor|done].
Qed.

(** *** A site on which every fetch succeeds *)

Section Budget.

Variable site : string -> string.
Variable start_url : string.

Local Abbreviation reachable := (page_reachable base_domain site start_url).

Hypothesis fetch_succeeds :
  forall history url, reachable url -> http_get history url = Response 200 (site url).
Hypothesis documents_parse :
  forall url, reachable url -> parses (site url) = true.
Hypothesis anchors_resolve :
  forall url, reachable url -> links_resolve url (site url).

(** The breadth-first invariant: the visited and the queued URLs are
    pages of the site, the start URL is visited or queued, and so is every
    link of a visited page. *)
Lemma reaches_frontier st :
  reaches' (initial start_url) st ->
  (forall url, url ∈ visited st -> reachable url) /\
  (forall url, url ∈ queue st -> reachable url) /\
  (start_url ∈ visited st \/ start_url ∈ queue st) /\
  (forall url link, url ∈ visited st -> links_to base_domain url (site url) link ->
                    link ∈ visited st \/ link ∈ queue st).
Proof.
  induction 1 as [|st st' Hr (Iv & Iq & Is & Il) Hs].
  - simpl. split; [set_solver|]. split.
    { intros url Hu. apply list_elem_of_singleton in Hu as ->. constructor. }
    split; [right; by left|set_solver].
  - apply step_next in Hs
      as (url & rest & Hq & Hb &
          [(Hv & ->)|[(Hv & Hf & ->)|(Hv & html & q' & Hg & Hok & Hd & ->)]]);
      simpl.
    + rewrite Hq in *. split; [done|].
      split; [intros u Hu; apply Iq; by right|].
      split.
      { destruct Is as [?|[Hx|?]%elem_of_cons]; subst; auto. }
      intros u l Hu Hl.
      destruct (Il u l Hu Hl) as [?|[Hx|?]%elem_of_cons]; subst; auto.
    + exfalso. rewrite fetch_succeeds in Hf; [by apply Hf|].
      apply Iq. rewrite Hq. by left.
    + assert (Hurl : reachable url) by (apply Iq; rewrite Hq; by left).
      rewrite fetch_succeeds in Hg by done. injection Hg as <-.
      apply discover_appends in Hd as (added & -> & Hadd).
      rewrite Hq in *. split.
      { intros u [?|Hx%elem_of_singleton]%elem_of_union; subst; auto. }
      split.
      { intros u [?|Hu]%elem_of_app; [apply Iq; by right|].
        apply Hadd in Hu as (_ & href & Hh & Hres).
        eapply reach_link; [exact Hurl|]. by exists href. }
      split.
      { destruct Is as [?|[Hx|?]%elem_of_cons];
          [left; by apply elem_of_union_l
          |left; subst; by apply elem_of_union_r, elem_of_singleton
          |right; apply elem_of_app; by left]. }
      intros u l [Hu|Hx%elem_of_singleton]%elem_of_union Hl; [|subst u].
      * destruct (Il u l Hu Hl) as [?|[Hx|?]%elem_of_cons];
          [left; by apply elem_of_union_l
          |left; subst; by apply elem_of_union_r, elem_of_singleton
          |right; apply elem_of_app; by left].
      * destruct (decide (l ∈ visited st ∪ {[url]})) as [?|Hn]; [by left|].
        right. apply elem_of_app. right. apply Hadd. split; [done|].
        destruct Hl as (href & ? & ?). by exists href.
Qed.

(** No exception leaves the loop. *)
Lemma reaches_no_raise st :
  reaches' (initial start_url) st -> step' st <> Raises.
Proof.
  intros Hr Hs. apply reaches_frontier in Hr as (_ & Iq & _).
  apply step_raises in Hs
    as (url & rest & html & Hq & _ & Hg & [Hbad|(href & Hh & Hbad)]);
    assert (Hurl : reachable url) by (apply Iq; rewrite Hq; by left);
    rewrite fetch_succeeds in Hg by done; injection Hg as <-.
  { by rewrite documents_parse in Hbad. }
  destruct (anchors_resolve url Hurl href Hh) as (link & host & Hj & Hn).
  destruct Hbad as [Hbad|(link' & Hj' & Hn')]; [congruence|].
  rewrite Hj in Hj'. injection Hj' as <-. congruence.
Qed.

(** When the queue is empty, every page of the site is visited. *)
Lemma reaches_exhausted st url :
  reaches' (initial start_url) st -> queue st = [] ->
  reachable url -> url ∈ visited st.
Proof.
  intros (_ & _ & Is & Il)%reaches_frontier Hq. rewrite Hq in *.
  induction 1 as [|u l Hu IH Hl].
  - destruct Is as [?|?%elem_of_nil]; done.
  - destruct (Il u l IH Hl) as [?|?%elem_of_nil]; done.
Qed.

(** The crawl returns, with the budget filled when the site has at least
    as many pages. *)
Lemma crawl_loop_fills_budget (targets : list string) :
  0 <= max_pages ->
  NoDup targets -> Forall reachable targets ->
  max_pages <= Z.of_nat (length targets) ->
  exists fuel final,
    crawl_loop' fuel (initial start_url) = Some (Returns final) /\
    Z.of_nat (length (pages final)) = max_pages /\
    Z.of_nat (size (visited final)) = max_pages.
Proof.
  intros Hmax Hnd Hall Hlen.
  destruct (crawl_loop_terminates (initial start_url)) as (fuel & out & Hout).
  destruct out as [final|].
  - exists fuel, final. split; [done|].
    apply crawl_loop_returns in Hout as (Hr & Hd).
    destruct (reaches_budget _ _ Hr) as (Hp & Hb);
      [by rewrite initial_size|rewrite initial_size; lia|].
    rewrite Hp. assert (Z.of_nat (size (visited final)) = max_pages); [|done].
    apply step_done in Hd as [Hq|?]; [|lia].
    assert (Hsub : (length targets <= size (visited final))%nat).
    { rewrite <- (size_list_to_set (C := gset string) targets) by done.
      apply subseteq_size. intros u Hu%elem_of_list_to_set.
      eapply reaches_exhausted; [done..|].
      by eapply Forall_forall in Hall. }
    lia.
  - apply crawl_loop_raises in Hout as (st & Hr & Hs).
    by apply reaches_no_raise in Hs.
Qed.

End Budget.

End Turns.

End CrawlFacts.

(** *** Static sites *)

Lemma serve_history site history url :
  Sites.serve site history url = Sites.serve site [] url.
Proof.
  induction site as [|[u r] site IH]; simpl; [done|].
  by destruct (bool_decide (u = url)).
Qed.

(** What the check of a closed site gives for each of its pages. *)
Lemma site_closed_page site base_domain urls url :
  Sites.site_closed site base_domain urls = true -> url ∈ urls ->
  (forall history,
     Sites.serve site history url = Response 200 (Sites.body_of site url)) /\
  Markup.parses (Sites.body_of site url) = true /\
  links_resolve Markup.find_all_a_href Urllib.urljoin Urllib.netloc
    url (Sites.body_of site url) /\
  forall link,
    links_to Markup.find_all_a_href Urllib.urljoin Urllib.netloc
      base_domain url (Sites.body_of site url) link ->
    link ∈ urls.
Proof.
  intros Hc Hu. unfold Sites.site_closed in Hc.
  rewrite forallb_forall in Hc. apply list_elem_of_In, Hc in Hu.
  unfold Sites.page_closed, Sites.body_of in *.
  destruct (Sites.serve site [] url) as [|code html] eqn:Es; [done|].
  apply andb_true_iff in Hu as [[->%Z.eqb_eq Hp]%andb_true_iff Hl].
  rewrite forallb_forall in Hl. split; [|split; [done|split]].
  - intros history. by rewrite serve_history.
  - intros href Hh%list_elem_of_In%Hl.
    destruct (Urllib.urljoin url href) as [link|] eqn:Ej; [|done].
    destruct (Urllib.netloc link) as [host|] eqn:En; [|done].
    by exists link, host.
  - intros link (href & Hh%list_elem_of_In%Hl & host & Hj & Hn & Hd).
    rewrite Hj, Hn, Hd in Hh. by apply bool_decide_eq_true in Hh.
Qed.

(** A crawl of a closed site stays within its pages. *)
Lemma site_closed_reachable site base_domain urls start_url url :
  Sites.site_closed site base_domain urls = true -> start_url ∈ urls ->
  page_reachable Markup.find_all_a_href Urllib.urljoin Urllib.netloc
    base_domain (Sites.body_of site) start_url url ->
  url ∈ urls.
Proof.
  intros Hc Hs. induction 1 as [|u link _ IH Hl]; [done|].
  by eapply site_closed_page.
Qed.

(** The site of eleven pages that link to one another. *)
Lemma ring_closed :
  Sites.site_closed Sites.ring (strip_www "www.example.com") Sites.ring_urls
  = true.
Proof. vm_compute. reflexivity. Qed.

Lemma ring_link (n : string) :
  n ∈ ["1"; "2"; "3"] ->
  links_to Markup.find_all_a_href Urllib.urljoin Urllib.netloc
    (strip_www "www.example.com") "https://www.example.com/p0"
    (Sites.body_of Sites.ring "https://www.example.com/p0")
    (String.append "https://www.example.com/p" n).
Proof.
  intros Hn. exists (String.append "https://www.example.com/p" n).
  repeat (apply elem_of_cons in Hn as [->|Hn]);
    [..|by apply elem_of_nil in Hn];
    (split; [apply (bool_decide_unpack _); vm_compute; exact I|]);
    exists "www.example.com"; repeat split; vm_compute; reflexivity.
Qed.

Lemma ring_start : "https://www.example.com/p0" ∈ Sites.ring_urls.
Proof. apply (bool_decide_unpack _). vm_compute. exact I. Qed.

(** The crawl of that site with a budget of three pages, run. *)
Example ring_crawl :
  option_map (option_map (map url))
    (Sites.crawl Sites.ring 3 "https://www.example.com/p0" 3)
  = Some (Some ["https://www.example.com/p0"; "https://www.example.com/p1";
                "https://www.example.com/p2"]).
Proof. vm_compute. reflexivity. Qed.

(** *** The page budget *)

(** C1, evaluated on a site of two pages with a budget of one page: both
    pages are within reach of the start URL and are served with status
    200, and the only request of the crawl succeeds; the home page holds
    an anchor target on which [urljoin] raises, the exception leaves
    [run_crawl], and no list of one page is returned. *)
Theorem budget_crawl_raises (fuel : nat) :
  page_reachable Markup.find_all_a_href Urllib.urljoin Urllib.netloc
    (strip_www "example.com") (Sites.body_of Sites.bad_href_site)
    "https://example.com/" "https://example.com/about" /\
  (forall history,
     Sites.serve Sites.bad_href_site history "https://example.com/"
     = Sites.page ["/about"; "//["] /\
     Sites.serve Sites.bad_href_site history "https://example.com/about"
     = Sites.page []) /\
  Markup.parses
    (Sites.body_of Sites.bad_href_site "https://example.com/") = true /\
  Urllib.urljoin "https://example.com/" "//[" = None /\
  step (Sites.serve Sites.bad_href_site) Markup.parses Markup.get_text
    Markup.find_all_a_href Urllib.urljoin Urllib.netloc
    (strip_www "example.com") 1 (initial "https://example.com/") = Raises /\
  Sites.crawl Sites.bad_href_site fuel "https://example.com/" 1 = Some None.
Proof.
  split.
  { eapply reach_link; [constructor|]. exists "/about".
    split; [apply (bool_decide_unpack _); vm_compute; exact I|].
    exists "example.com". repeat split; vm_compute; reflexivity. }
  split; [intros history; rewrite !serve_history; split; reflexivity|].
  split; [vm_compute; reflexivity|]. split; [vm_compute; reflexivity|].
  split; [vm_compute; reflexivity|].
  destruct fuel; vm_compute; reflexivity.
Qed.

(** *** Failed fetches *)

(** C5, as stated, fails: the fetch of [/b] fails, [/b] is not put into
    the visited set, and when the later page [/c] links to it, it is
    queued and requested again. *)
Lemma failed_url_fetched_again :
  exists final,
    Sites.crawl_state Sites.retry_site 4 "https://example.com/" 5
    = Some (Returns final) /\
    fetch_fails (Sites.serve Sites.retry_site [] "https://example.com/b") /\
    requests final
    = ["https://example.com/"; "https://example.com/b";
       "https://example.com/c"; "https://example.com/b"].
Proof.
  eexists. split; [vm_compute; reflexivity|]. split; [|reflexivity].
  vm_compute. discriminate.
Qed.

(** C5, amended: the turn in which the fetch of a URL fails only takes
    that copy of the URL off the queue; the visited set and the page list
    are unchanged, so the URL is requested again when another copy of it
    leaves the queue.  Only a URL of the visited set, one whose fetch
    succeeded, is not requested again in the rest of the crawl. *)
Theorem failed_fetch_not_marked
    (http_get : list string -> string -> fetch_result)
    (parses : string -> bool) (get_text : string -> string)
    (find_all_a_href : string -> list string)
    (urljoin : string -> string -> option string)
    (netloc : string -> option string)
    (base_domain : string) (max_pages : Z) (st : state) (url : string)
    (rest : list string) :
  queue st = url :: rest ->
  Z.of_nat (size (visited st)) < max_pages ->
  url ∉ visited st ->
  fetch_fails (http_get (requests st) url) ->
  step http_get parses get_text find_all_a_href urljoin netloc base_domain max_pages st
  = Next {| visited := visited st; queue := rest; pages := pages st;
            requests := requests st ++ [url] |} /\
  forall st' fetched,
    reaches http_get parses get_text find_all_a_href urljoin netloc base_domain
      max_pages st st' ->
    fetched ∈ visited st ->
    exists later, requests st' = requests st ++ later /\ fetched ∉ later.
Proof.
  intros Hq Hb Hv Hf. split; [by apply step_fetch_fails|].
  intros st' fetched Hr Hin.
  destruct (reaches_requests _ _ _ _ _ _ _ _ _ _ Hr) as (_ & later & He & Hn).
  exists later. split; [done|]. by apply Hn.
Qed.

(** On the site above, at the turn that requests [/b]. *)
Lemma failed_fetch_not_marked_witness :
  Sites.step_on Sites.retry_site "example.com" 5
    {| visited := {[ "https://example.com/" ]};
       queue := ["https://example.com/b"; "https://example.com/c"];
       pages := []; requests := ["https://example.com/"] |}
  = Next {| visited := {[ "https://example.com/" ]};
            queue := ["https://example.com/c"];
            pages := [];
            requests := ["https://example.com/"; "https://example.com/b"] |}.
Proof.
  refine (proj1 (failed_fetch_not_marked (Sites.serve Sites.retry_site) Markup.parses
           Markup.get_text Markup.find_all_a_href Urllib.urljoin Urllib.netloc
           "example.com" 5
           {| visited := {[ "https://example.com/" ]};
              queue := ["https://example.com/b"; "https://example.com/c"];
              pages := []; requests := ["https://example.com/"] |}
           "https://example.com/b" ["https://example.com/c"] _ _ _ _)).
  - reflexivity.
  - vm_compute. reflexivity.
  - apply (bool_decide_unpack _). vm_compute. exact I.
  - vm_compute. discriminate.
Defined.

(** *** Link discovery *)

(** C6, as stated, fails: the home page links to itself; its URL is in
    the visited set when its links are discovered, and it is not put
    into the queue. *)
Lemma visited_link_not_enqueued :
  exists st',
    Sites.step_on Sites.self_link_site "example.com" 5
      (initial "https://example.com/") = Next st' /\
    links_to Markup.find_all_a_href Urllib.urljoin Urllib.netloc
      "example.com" "https://example.com/"
      (Sites.body_of Sites.self_link_site "https://example.com/")
      "https://example.com/" /\
    "https://example.com/" ∈ visited st' /\
    queue st' = ["https://example.com/about"].
Proof.
  eexists. split; [vm_compute; reflexivity|]. split; [|split].
  - exists "https://example.com/".
    split; [apply (bool_decide_unpack _); vm_compute; exact I|].
    exists "example.com". repeat split; vm_compute; reflexivity.
  - apply (bool_decide_unpack _). vm_compute. exact I.
  - reflexivity.
Qed.

(** C6, amended: after a page is processed, the links put at the end of
    the queue are the links of the crawl's domain found in the page that
    are not in the visited set, which already holds the page's own URL;
    and a URL that is in the visited set when it leaves the queue is
    dropped without a request. *)
Theorem enqueue_checks_visited
    (http_get : list string -> string -> fetch_result)
    (parses : string -> bool) (get_text : string -> string)
    (find_all_a_href : string -> list string)
    (urljoin : string -> string -> option string)
    (netloc : string -> option string)
    (base_domain : string) (max_pages : Z) (st st' : state) (url html : string)
    (rest : list string) :
  queue st = url :: rest ->
  url ∉ visited st ->
  http_get (requests st) url = Response 200 html ->
  step http_get parses get_text find_all_a_href urljoin netloc base_domain max_pages st
  = Next st' ->
  visited st' = visited st ∪ {[ url ]} /\
  (exists added,
     queue st' = rest ++ added /\
     forall link,
       link ∈ added <->
       ((link ∉ visited st') /\
        links_to find_all_a_href urljoin netloc base_domain url html link)) /\
  forall st1 url1 rest1,
    queue st1 = url1 :: rest1 ->
    Z.of_nat (size (visited st1)) < max_pages ->
    url1 ∈ visited st1 ->
    step http_get parses get_text find_all_a_href urljoin netloc base_domain
      max_pages st1
    = Next {| visited := visited st1; queue := rest1; pages := pages st1;
              requests := requests st1 |}.
Proof.
  intros Hq Hv Hg Hs.
  apply step_next in Hs
    as (url' & rest' & Hq' & Hb &
        [(Hv' & ->)|[(Hv' & Hf & ->)|(Hv' & html' & q' & Hg' & Hok & Hd & ->)]]);
    rewrite Hq in Hq'; injection Hq' as <- <-.
  - done.
  - by rewrite Hg in Hf.
  - rewrite Hg in Hg'. injection Hg' as <-. simpl.
    split; [done|]. split; [|intros st1 url1 rest1 H1 H2 H3; by eapply step_visited].
    apply discover_appends in Hd as (added & -> & Hadd).
    exists added. split; [done|]. intros link. by rewrite Hadd.
Qed.

(** On the site whose home page links to itself, at the first turn. *)
Lemma enqueue_checks_visited_witness :
  exists st',
    Sites.step_on Sites.self_link_site "example.com" 5
      (initial "https://example.com/") = Next st' /\
    visited st' = ∅ ∪ {[ "https://example.com/" ]} /\
    exists added,
      queue st' = [] ++ added /\
      forall link,
        link ∈ added <->
        ((link ∉ visited st') /\
         links_to Markup.find_all_a_href Urllib.urljoin Urllib.netloc
           "example.com" "https://example.com/"
           (Sites.body_of Sites.self_link_site "https://example.com/") link).
Proof.
  eexists. split; [vm_compute; reflexivity|].
  refine (let H := enqueue_checks_visited (Sites.serve Sites.self_link_site) Markup.parses
           Markup.get_text Markup.find_all_a_href Urllib.urljoin Urllib.netloc
           "example.com" 5 (initial "https://example.com/") _
           "https://example.com/"
           (Sites.body_of Sites.self_link_site "https://example.com/") []
           _ _ _ _ in conj (proj1 H) (proj1 (proj2 H))).
  - reflexivity.
  - apply (bool_decide_unpack _). vm_compute. exact I.
  - vm_compute. reflexivity.
  - vm_compute. reflexivity.
Defined.

(** ** The domain test of the link filter *)

(** A text that does not hold the word is left as it is by [replace]. *)
Lemma replace_scan_absent (old new s : string) :
  PyStr.contains old s = false -> PyStr.replace_scan old new 0 s = s.
Proof.
  induction s as [|c s IH]; [done|].
  cbn [PyStr.contains PyStr.replace_scan].
  intros [Hs Hc]%orb_false_elim. rewrite Hs. f_equal. by apply IH.
Qed.

(** On a host that holds [www.] nowhere but at its start, the code's
    [replace] takes off the leading [www.] and nothing else. *)
Lemma strip_www_leading (host : string) :
  PyStr.contains "www." host = false ->
  strip_www host = host /\
  strip_www (String.append "www." host) = strip_leading_www (String.append "www." host).
Proof.
  intros H. unfold strip_www, PyStr.replace. split.
  - by apply replace_scan_absent.
  - simpl. by apply replace_scan_absent.
Qed.

(** The two anchors of the specification's example, found on the page
    [https://www.example.com/a]: the first is appended to the queue, the
    second is not. *)
Lemma link_filter_examples :
  discover Urllib.urljoin Urllib.netloc (strip_www "www.example.com")
    "https://www.example.com/a" ∅
    ["//www.example.com/b"; "https://other.com/c"] []
  = Some ["https://www.example.com/b"].
Proof. vm_compute. reflexivity. Qed.

(** C4, evaluated on the host [example.www.com] for a crawl of
    [example.com]: [replace] removes the inner [www.] as well, so the code
    takes the two hosts for one domain, where a filter that strips a
    leading [www.] only tells them apart; the crawl started at
    [https://example.com/a] requests the page of the other host. *)
Theorem www_stripped_anywhere :
  strip_www "example.www.com" = "example.com" /\
  strip_leading_www "example.www.com" = "example.www.com" /\
  same_domain (strip_www "example.com") (strip_www "example.www.com") = true /\
  accepts_leading "example.com" "example.www.com" = false /\
  exists final,
    Sites.crawl_state Sites.www_site 10 "https://example.com/a" 5
    = Some (Returns final) /\
    requests final = ["https://example.com/a"; "https://example.www.com/c"] /\
    map url (pages final) = ["https://example.com/a"; "https://example.www.com/c"].
Proof.
  split; [reflexivity|]. split; [reflexivity|].
  split; [vm_compute; reflexivity|]. split; [vm_compute; reflexivity|].
  eexists. split; [vm_compute; reflexivity|].
  split; vm_compute; reflexivity.
Qed.

(** ** Errors that leave the crawl *)

(** When the fetch of the start URL fails, the crawl returns the empty
    list: the loop ends after one turn. *)
Lemma start_fetch_failure
    (http_get : list string -> string -> fetch_result)
    (parses : string -> bool) (get_text : string -> string)
    (find_all_a_href : string -> list string)
    (urljoin : string -> string -> option string)
    (netloc : string -> option string)
    (start_url host : string) (max_pages : Z) :
  netloc start_url = Some host ->
  fetch_fails (http_get [] start_url) ->
  run_crawl http_get parses get_text find_all_a_href urljoin netloc 1 start_url
    max_pages = Some (Some []).
Proof.
  intros Hn Hf. unfold run_crawl, run_crawl_state. rewrite Hn.
  destruct (decide (Z.of_nat (size (visited (initial start_url))) < max_pages))
    as [Hb|Hb].
  - simpl crawl_loop.
    rewrite (step_fetch_fails http_get parses get_text find_all_a_href urljoin netloc
               (strip_www host) max_pages (initial start_url) start_url [])
      by (try done; apply not_elem_of_empty).
    by unfold step.
  - assert (Hd : step http_get parses get_text find_all_a_href urljoin netloc
                   (strip_www host) max_pages (initial start_url) = Done).
    { apply step_done. right. lia. }
    simpl crawl_loop. by rewrite Hd.
Qed.


(** A document on which the parser raises: the page is fetched with
    success and the exception of the parser leaves [run_crawl]. *)
Example parser_error_raises (fuel : nat) :
  Sites.serve Sites.bad_markup_site [] "https://example.com/"
  = Response 200 "<p>ok</p><![x[ y" /\
  Markup.parses "<p>ok</p><![x[ y" = false /\
  Sites.crawl Sites.bad_markup_site fuel "https://example.com/" 5 = Some None.
Proof.
  split; [reflexivity|]. split; [reflexivity|].
  destruct fuel; vm_compute; reflexivity.
Qed.

(** C9, evaluated on a site whose home page holds the anchor target
    [//[]: the page is fetched with success, [urljoin] raises on the
    target, and the exception leaves [run_crawl], which returns no list;
    a start URL that fails to be fetched gives the empty list. *)
Theorem malformed_href_raises (fuel : nat) :
  Sites.serve Sites.bad_href_site [] "https://example.com/"
  = Sites.page ["/about"; "//["] /\
  Urllib.urljoin "https://example.com/" "//[" = None /\
  Sites.crawl Sites.bad_href_site fuel "https://example.com/" 5 = Some None /\
  Sites.crawl Sites.bad_href_site 1 "https://example.com/missing" 5
  = Some (Some []).
Proof.
  split; [reflexivity|]. split; [vm_compute; reflexivity|].
  split; [destruct fuel; vm_compute; reflexivity|].
  vm_compute. reflexivity.
Qed.

(** * Further properties of the code *)

(** ** Hit counts *)

Lemma count_nonneg (s w : string) : 0 <= PyStr.count s w.
Proof.
  destruct w as [|c w]; simpl; [lia|].
  by apply count_scan_nonneg.
Qed.

(** A word is counted when, and only when, it is a substring of the
    text. *)
Lemma count_zero_absent (s w : string) :
  PyStr.count s w = 0 <-> PyStr.contains w s = false.
Proof.
  destruct w as [|c w].
  - simpl. split; [lia|]. by destruct s.
  - unfold PyStr.count.
    induction s as [|d s IH].
    + simpl. by split.
    + cbn [PyStr.count_scan PyStr.contains].
      destruct (PyStr.startswith (String c w) (String d s)) eqn:Es.
      * split; [|done].
        pose proof (count_scan_nonneg (String c w) s
                      (String.length (String c w) - 1)). lia.
      * exact IH.
Qed.

Lemma count_hits_nonneg (text : string) (words : list string) :
  0 <= count_hits text words.
Proof.
  rewrite count_hits_sum. induction words as [|w words IH]; simpl; [lia|].
  pose proof (count_nonneg text w). lia.
Qed.

Lemma count_hits_none (text : string) (words : list string) :
  Forall (fun w => PyStr.contains w text = false) words ->
  count_hits text words = 0.
Proof.
  rewrite count_hits_sum. induction 1 as [|w words Hw _ IH]; simpl; [done|].
  apply count_zero_absent in Hw. lia.
Qed.

(** X1: a hit count is never negative, and it is zero exactly when no
    word of the list is a substring of the text. *)
Theorem count_hits_zero_iff_absent (text : string) (words : list string) :
  0 <= count_hits text words /\
  (count_hits text words = 0 <->
   Forall (fun w => PyStr.contains w text = false) words).
Proof.
  split; [apply count_hits_nonneg|]. split; [|apply count_hits_none].
  induction words as [|w words IH]; [constructor|].
  pose proof (count_hits_nonneg text words) as Hr.
  pose proof (count_nonneg text w) as Hw.
  rewrite count_hits_sum in *. simpl. intros H.
  constructor; [apply count_zero_absent; lia|apply IH; lia].
Qed.

(** X2: the hits of two lists put together are the hits of the one plus
    the hits of the other, and the order of the words does not change
    the count; a word listed twice counts twice. *)
Theorem count_hits_order_free (text : string) (l1 l2 : list string) :
  count_hits text (l1 ++ l2) = count_hits text l1 + count_hits text l2 /\
  (forall l, l ≡ₚ l1 -> count_hits text l = count_hits text l1).
Proof.
  split.
  - rewrite !count_hits_sum, map_app.
    induction l1 as [|w l1 IH]; simpl; lia.
  - intros l Hp. rewrite !count_hits_sum.
    induction Hp; simpl; lia.
Qed.

Lemma count_hits_order_free_witness :
  count_hits "fast fix today" ["today"; "fix"; "fast"]
  = count_hits "fast fix today" ["fast"; "fix"; "today"].
Proof.
  apply (count_hits_order_free "fast fix today" ["fast"; "fix"; "today"] []).
  apply Permutation_rev.
Defined.

(** ** Scores, issues and priorities *)

(** X3: on a text that holds no positive and no proof word of a persona
    (the empty page among them) the score is 0, the priority HIGH, and the
    issues are overall_low, missing_proof and weak_language, followed by
    conflicting_language when a negative word occurs. *)
Theorem score_zero_without_hits (text : string) (item : string * Persona) :
  Forall (fun w => PyStr.contains w text = false) (positive (snd item)) ->
  Forall (fun w => PyStr.contains w text = false) (proof (snd item)) ->
  let entry := snd (persona_entry text item) in
  ps_score entry = 0 /\ ps_priority entry = "HIGH" /\
  ps_issues entry
  = ["overall_low"; "missing_proof"; "weak_language"] ++
    (if count_hits text (negative (snd item)) >? 0
     then ["conflicting_language"] else []).
Proof.
  intros Hpos Hproof. destruct item as [pname persona]. simpl in *.
  apply count_hits_none in Hpos, Hproof.
  pose proof (count_hits_nonneg text (negative persona)) as Hneg.
  rewrite Hpos, Hproof.
  replace (Z.max 0 (Z.min 100 (0 * 3 + 0 * 5 - count_hits text (negative persona) * 4)))
    with 0 by lia.
  split; [done|]. split; [done|].
  unfold diagnose. simpl. by destruct (_ >? 0).
Qed.

(** A page that holds none of the words of the second persona. *)
Lemma score_zero_without_hits_witness :
  let entry :=
    snd (persona_entry "welcome to our shop"
           ("Skeptic",
            {| positive := ["reviews"; "trusted"; "refund"; "returns"; "policy"];
               negative := ["miracle"; "hype"];
               proof := ["reviews"; "refund"; "returns"] |})) in
  ps_score entry = 0 /\ ps_priority entry = "HIGH" /\
  ps_issues entry
  = ["overall_low"; "missing_proof"; "weak_language"] ++
    (if count_hits "welcome to our shop" ["miracle"; "hype"] >? 0
     then ["conflicting_language"] else []).
Proof.
  apply (score_zero_without_hits "welcome to our shop"
           ("Skeptic",
            {| positive := ["reviews"; "trusted"; "refund"; "returns"; "policy"];
               negative := ["miracle"; "hype"];
               proof := ["reviews"; "refund"; "returns"] |})).
  - repeat constructor.
  - repeat constructor.
Defined.

(** [diagnose] puts the four tests one after the other. *)
Lemma diagnose_tests (score pos neg proof : Z) :
  diagnose score pos neg proof
  = (if score <? 50 then ["overall_low"] else []) ++
    (if proof =? 0 then ["missing_proof"] else []) ++
    (if pos <? 2 then ["weak_language"] else []) ++
    (if neg >? 0 then ["conflicting_language"] else []).
Proof.
  unfold diagnose.
  destruct (score <? 50); destruct (proof =? 0); destruct (pos <? 2);
    destruct (neg >? 0); reflexivity.
Qed.

Lemma elem_of_guarded (b : bool) (a x : string) :
  x ∈ (if b then [a] else []) <-> x = a /\ b = true.
Proof.
  destruct b.
  - rewrite list_elem_of_singleton. tauto.
  - rewrite elem_of_nil. split; [done|]. by intros [_ ?].
Qed.

(** The issues that [diagnose] reports, each with its test. *)
Lemma diagnose_elem (score pos neg proof : Z) (issue : string) :
  issue ∈ diagnose score pos neg proof <->
  (issue = "overall_low" /\ score < 50) \/
  (issue = "missing_proof" /\ proof = 0) \/
  (issue = "weak_language" /\ pos < 2) \/
  (issue = "conflicting_language" /\ 0 < neg).
Proof.
  rewrite diagnose_tests, !elem_of_app, !elem_of_guarded.
  rewrite !Z.ltb_lt, Z.eqb_eq, Z.gtb_lt. tauto.
Qed.

(** X4: in every persona entry of a page, a HIGH priority comes with the
    issue overall_low and a LOW priority never does; missing_proof together
    with weak_language means a score of at most 3 and a HIGH priority; and
    an entry without issues has a score of at least 50. *)
Theorem issues_agree_with_priority (text : string) (item : string * Persona) :
  let entry := snd (persona_entry text item) in
  (ps_priority entry = "HIGH" -> "overall_low" ∈ ps_issues entry) /\
  (ps_priority entry = "LOW" -> "overall_low" ∉ ps_issues entry) /\
  ("missing_proof" ∈ ps_issues entry -> "weak_language" ∈ ps_issues entry ->
   ps_score entry <= 3 /\ ps_priority entry = "HIGH") /\
  (ps_issues entry = [] -> 50 <= ps_score entry <= 100).
Proof.
  destruct item as [pname persona]. simpl.
  pose proof (count_hits_nonneg text (negative persona)) as Hn.
  set (pos := count_hits text (positive persona)).
  set (neg := count_hits text (negative persona)) in *.
  set (prf := count_hits text (proof persona)).
  set (sc := Z.max 0 (Z.min 100 (pos * 3 + prf * 5 - neg * 4))).
  repeat split.
  - unfold priority. intros H. apply diagnose_elem. left. split; [done|].
    destruct (Z.ltb_spec sc 40); [lia|]. by destruct (sc <? 60).
  - unfold priority. intros H [[_ Hs]|[[? _]|[[? _]|[? _]]]]%diagnose_elem;
      try done.
    destruct (Z.ltb_spec sc 40); [done|]. destruct (Z.ltb_spec sc 60); [done|lia].
  - apply diagnose_elem in H as [[? _]|[[_ Hq]|[[? _]|[? _]]]]; try done.
    apply diagnose_elem in H0 as [[? _]|[[? _]|[[_ Hp]|[? _]]]]; try done.
    unfold sc. lia.
  - apply diagnose_elem in H as [[? _]|[[_ Hq]|[[? _]|[? _]]]]; try done.
    apply diagnose_elem in H0 as [[? _]|[[? _]|[[_ Hp]|[? _]]]]; try done.
    unfold priority. destruct (Z.ltb_spec sc 40); [done|]. unfold sc in *. lia.
  - destruct (Z.lt_ge_cases sc 50) as [Hlt|?]; [|lia].
    assert (Hin : "overall_low" ∈ diagnose sc pos neg prf).
    { apply diagnose_elem. by left. }
    rewrite H in Hin. by apply elem_of_nil in Hin.
  - unfold sc. lia.
Qed.

Lemma issues_agree_with_priority_witness :
  "overall_low"
  ∈ ps_issues
      (snd (persona_entry "maybe today"
              ("Fixer",
               {| positive := ["fast"; "instant"; "today"; "solve"; "fix";
                               "guarantee"];
                  negative := ["maybe"; "eventually"; "could"];
                  proof := ["guarantee"; "delivery"; "today"] |}))).
Proof.
  apply (issues_agree_with_priority "maybe today"
           ("Fixer",
            {| positive := ["fast"; "instant"; "today"; "solve"; "fix";
                            "guarantee"];
               negative := ["maybe"; "eventually"; "could"];
               proof := ["guarantee"; "delivery"; "today"] |})).
  vm_compute. reflexivity.
Defined.

(** X5: for the five configured personas and every text, each diagnosed
    issue has its entry in the recommendation table, so the suggestions
    match the issues one for one: conflicting_language, for which the
    last two personas have no entry, needs a negative word, and these two
    have none. *)
Theorem every_issue_has_suggestion (text : string) :
  Forall (fun item =>
            let entry := snd (persona_entry text item) in
            Forall2 (fun issue suggestion =>
                       table_entry (fst item) issue = Some suggestion)
              (ps_issues entry) (ps_suggestions entry))
    PERSONAS.
Proof.
  unfold PERSONAS.
  repeat apply Forall_cons_2; try apply Forall_nil_2;
    unfold persona_entry, score_persona;
    cbn [fst snd ps_issues ps_suggestions score positive_hits negative_hits
         proof_hits positive negative proof];
    rewrite diagnose_tests;
    try (change (count_hits text [] >? 0) with false; cbv iota);
    repeat match goal with
           | |- context [if ?b then _ else _] => destruct b
           end;
    cbn [app];
    match goal with
    | |- Forall2 _ _ ?s =>
        let v := eval vm_compute in s in
        replace s with v by (vm_compute; reflexivity)
    end;
    repeat constructor; vm_compute; reflexivity.
Qed.

(** ** Page types *)

(** The occurrences of a character add up over a concatenation. *)
Lemma count_char_app (c : ascii) (s1 s2 : string) :
  PyStr.count (String.append s1 s2) (String c EmptyString)
  = PyStr.count s1 (String c EmptyString) + PyStr.count s2 (String c EmptyString).
Proof.
  unfold PyStr.count. induction s1 as [|d s1 IH]; [done|].
  simpl. destruct (Ascii.eqb c d); simpl in IH |- *; rewrite IH; lia.
Qed.

(** X6: a URL whose path has one segment, such as
    [https://shop.example.com/products], has three slashes and is taken for
    a landing page, whatever the segment says. *)
Theorem first_level_path_is_landing (origin segment : string) :
  PyStr.count origin "/" <= 2 ->
  PyStr.contains "/" segment = false ->
  detect_page_type (String.append origin (String.append "/" segment))
  = "Homepage / Landing".
Proof.
  intros Ho Hs. apply count_zero_absent in Hs.
  unfold detect_page_type.
  rewrite !count_char_app, Hs.
  change (PyStr.count "/" "/") with 1.
  destruct (Z.leb_spec (PyStr.count origin "/" + (1 + 0)) 3) as [_|H]; [|lia].
  by rewrite orb_true_r.
Qed.

Lemma first_level_path_is_landing_witness :
  detect_page_type "https://shop.example.com/products" = "Homepage / Landing".
Proof.
  apply (first_level_path_is_landing "https://shop.example.com" "products").
  - vm_compute. discriminate.
  - reflexivity.
Defined.

(** ** The text normalizer *)

(** The characters of a string. *)
Lemma collapse_ws_spaces (b : bool) (s : string) :
  Forall (fun c => PyStr.is_space c = true -> c = " "%char)
    (list_ascii_of_string (PyStr.collapse_ws b s)).
Proof.
  revert b. induction s as [|c s IH]; intros b; simpl; [constructor|].
  destruct (PyStr.is_space c) eqn:Ec.
  - destruct b; [apply IH|]. simpl. constructor; [done|apply IH].
  - simpl. constructor; [|apply IH]. intros H. by rewrite Ec in H.
Qed.

Lemma collapse_ws_no_run (s : string) (b : bool) :
  PyStr.contains "  " (PyStr.collapse_ws b s) = false /\
  (b = true -> PyStr.startswith " " (PyStr.collapse_ws b s) = false).
Proof.
  revert b. induction s as [|c s IH]; intros b; [by destruct b|].
  cbn [PyStr.collapse_ws].
  destruct (PyStr.is_space c) eqn:Ec.
  - destruct (IH true) as [IH1 IH2]. destruct b; [by split|].
    split; [|done]. cbn [PyStr.contains PyStr.startswith]. rewrite IH1.
    specialize (IH2 eq_refl).
    destruct (PyStr.collapse_ws true s) as [|d r]; [done|].
    cbn [PyStr.startswith] in IH2 |- *.
    change (Ascii.eqb " " " ") with true. cbv iota.
    destruct (Ascii.eqb " " d); [done|]. done.
  - destruct (IH false) as [IH1 _].
    assert (Hc : Ascii.eqb " " c = false).
    { destruct (Ascii.eqb_spec " " c) as [<-|]; [|done]. done. }
    split.
    + cbn [PyStr.contains PyStr.startswith]. rewrite Hc, IH1. done.
    + intros _. cbn [PyStr.startswith]. by rewrite Hc.
Qed.

Lemma lower_chars (s : string) :
  list_ascii_of_string (PyStr.lower s)
  = map PyStr.lower_char (list_ascii_of_string s).
Proof. induction s as [|c s IH]; simpl; [done|]. by rewrite IH. Qed.

Lemma lower_char_not_upper (c : ascii) :
  let n := nat_of_ascii (PyStr.lower_char c) in ~ (65 <= n <= 90)%nat.
Proof. destruct c as [[] [] [] [] [] [] [] []]; vm_compute; lia. Qed.

Lemma lower_keeps_double_space (s : string) :
  PyStr.contains "  " (PyStr.lower s) = PyStr.contains "  " s.
Proof.
  assert (Hsp : forall c, Ascii.eqb " " (PyStr.lower_char c) = Ascii.eqb " " c).
  { intros c. destruct c as [[] [] [] [] [] [] [] []]; reflexivity. }
  induction s as [|c s IH]; [done|].
  cbn [PyStr.lower PyStr.contains PyStr.startswith]. rewrite IH, Hsp.
  destruct s as [|d s]; [done|].
  cbn [PyStr.lower PyStr.startswith]. by rewrite Hsp.
Qed.

(** The characters of normalized text: white space is the space
    character only and no letter is upper case. *)
Lemma clean_text_chars (get_text : string -> string) (html : string) :
  Forall (fun c => (PyStr.is_space c = true -> c = " "%char) /\
                   ~ (65 <= nat_of_ascii c <= 90)%nat)
    (list_ascii_of_string (clean_text get_text html)).
Proof.
  unfold clean_text, PyStr.re_sub_ws.
  rewrite lower_chars. apply Forall_map.
  eapply Forall_impl; [apply (collapse_ws_spaces false)|].
  intros c Hc. simpl. split; [|apply lower_char_not_upper].
  rewrite is_space_lower_char. intros Hs. by rewrite (Hc Hs).
Qed.

(** X7: the text that [clean_text] returns is in normal form: lowering
    and collapsing leave it as it is, it has no two spaces in a row, its
    only white space is the space character and it has no upper-case
    ASCII letter. *)
Theorem clean_text_normal_form (get_text : string -> string) (html : string) :
  let text := clean_text get_text html in
  PyStr.lower text = text /\
  PyStr.re_sub_ws text = text /\
  PyStr.contains "  " text = false /\
  Forall (fun c => (PyStr.is_space c = true -> c = " "%char) /\
                   ~ (65 <= nat_of_ascii c <= 90)%nat)
    (list_ascii_of_string text).
Proof.
  split; [|split; [|split]]; [| | |apply clean_text_chars];
    unfold clean_text, PyStr.re_sub_ws.
  - apply lower_idempotent.
  - rewrite <- collapse_ws_lower. apply collapse_ws_idempotent.
  - rewrite lower_keeps_double_space. apply collapse_ws_no_run.
Qed.

(** The characters of a substring are characters of the text. *)
Lemma startswith_chars (w s : string) :
  PyStr.startswith w s = true ->
  Forall (fun c => c ∈ list_ascii_of_string s) (list_ascii_of_string w).
Proof.
  revert s. induction w as [|a w IH]; intros s; [constructor|].
  destruct s as [|b s]; [done|]. cbn [PyStr.startswith list_ascii_of_string].
  destruct (Ascii.eqb_spec a b) as [->|]; [|done].
  intros H%IH. constructor; [by left|].
  eapply Forall_impl; [exact H|]. intros c Hc. by right.
Qed.

Lemma contains_chars (w s : string) :
  PyStr.contains w s = true ->
  Forall (fun c => c ∈ list_ascii_of_string s) (list_ascii_of_string w).
Proof.
  induction s as [|b s IH].
  - simpl. rewrite orb_false_r. apply startswith_chars.
  - cbn [PyStr.contains]. intros [H|H]%orb_true_iff.
    + by apply startswith_chars.
    + eapply Forall_impl; [exact (IH H)|]. intros c Hc. by right.
Qed.

(** X8: a word with an upper-case ASCII letter, or with white space other
    than the space character, is never counted in the text of a page. *)
Theorem unnormalized_word_never_hits
    (get_text : string -> string) (html word : string) :
  Exists (fun c => (65 <= nat_of_ascii c <= 90)%nat \/
                   (PyStr.is_space c = true /\ c <> " "%char))
    (list_ascii_of_string word) ->
  PyStr.count (clean_text get_text html) word = 0.
Proof.
  intros Hw. apply count_zero_absent.
  destruct (PyStr.contains word (clean_text get_text html)) eqn:Hc; [|done].
  apply contains_chars in Hc. apply Exists_exists in Hw as (c & Hin & Hbad).
  rewrite Forall_forall in Hc. apply Hc in Hin.
  pose proof (clean_text_chars get_text html) as Hn.
  rewrite Forall_forall in Hn. destruct (Hn c Hin) as [Hsp Hup].
  destruct Hbad as [Hbad|[Hs Hne]]; [done|]. by apply Hsp in Hs.
Qed.

Lemma unnormalized_word_never_hits_witness :
  PyStr.count (clean_text Markup.get_text "<p>Fast delivery</p>") "Fast" = 0.
Proof.
  apply (unnormalized_word_never_hits Markup.get_text
           "<p>Fast delivery</p>" "Fast").
  apply Exists_cons_hd. left. vm_compute. lia.
Defined.

(** ** The crawl engine, for every fetcher, parser and URL function *)

Section CrawlResults.

Variable http_get : list string -> string -> fetch_result.
Variable parses : string -> bool.
Variable get_text : string -> string.
Variable find_all_a_href : string -> list string.
Variable urljoin : string -> string -> option string.
Variable netloc : string -> option string.
Variable base_domain : string.
Variable max_pages : Z.
Variable start_url : string.

Local Abbreviation step_ :=
  (step http_get parses get_text find_all_a_href urljoin netloc base_domain max_pages).
Local Abbreviation reaches_ :=
  (reaches http_get parses get_text find_all_a_href urljoin netloc base_domain
     max_pages).
Local Abbreviation crawl_loop_ :=
  (crawl_loop http_get parses get_text find_all_a_href urljoin netloc base_domain
     max_pages).

(** Further turns do not change a result. *)
Lemma crawl_loop_more_fuel (fuel fuel' : nat) (st : state) (out : outcome) :
  crawl_loop_ fuel st = Some out -> (fuel <= fuel')%nat ->
  crawl_loop_ fuel' st = Some out.
Proof.
  revert fuel' st. induction fuel as [|fuel IH]; intros fuel' st; simpl.
  - destruct (step_ st) eqn:Es; try done; intros H _;
      destruct fuel'; simpl; by rewrite Es.
  - destruct (step_ st) as [|st'|] eqn:Es; intros H Hle.
    + destruct fuel'; simpl; by rewrite Es.
    + destruct fuel' as [|fuel']; [lia|]. simpl. rewrite Es.
      apply IH; [done|lia].
    + destruct fuel'; simpl; by rewrite Es.
Qed.

(** The pages and the visited set go together: one page for each visited
    URL, in the order of the requests, within the budget. *)
Lemma reaches_pages (st : state) :
  reaches_ (initial start_url) st ->
  length (pages st) = size (visited st) /\
  Z.of_nat (size (visited st)) <= Z.max 0 max_pages /\
  NoDup (map url (pages st)) /\
  (forall u, u ∈ map url (pages st) <-> u ∈ visited st) /\
  map url (pages st) `sublist_of` requests st.
Proof.
  induction 1 as [|st st' Hr (Il & Ib & Id & Iv & Is) Hs].
  - rewrite initial_size. simpl. split; [done|]. split; [lia|].
    split; [constructor|]. split; [|constructor].
    intros u. rewrite elem_of_nil. set_solver.
  - apply step_next in Hs
      as (u & rest & Hq & Hb &
          [(Hv & ->)|[(Hv & Hf & ->)|(Hv & html & q' & Hg & Hok & Hd & ->)]]);
      simpl.
    + done.
    + repeat split; try done; try apply Iv.
      by apply sublist_inserts_r.
    + rewrite length_app, map_app, size_union, size_singleton
        by (by apply disjoint_singleton_r).
      simpl. split; [lia|]. split; [lia|]. split; [|split].
      * apply NoDup_app. split; [done|]. split; [|apply NoDup_singleton].
        intros x Hx Hx'. apply list_elem_of_singleton in Hx' as ->.
        by apply Iv in Hx.
      * intros x. rewrite elem_of_app, list_elem_of_singleton, elem_of_union,
          elem_of_singleton. by rewrite Iv.
      * by apply sublist_app.
Qed.

(** Each page of the result is the scoring of a document that was fetched
    with status 200 at its URL. *)
Lemma reaches_page_content (st : state) :
  reaches_ (initial start_url) st ->
  Forall (fun p => exists history html,
            http_get history (url p) = Response 200 html /\
            parses html = true /\
            p = make_page_info (url p) (clean_text get_text html))
    (pages st).
Proof.
  induction 1 as [|st st' Hr IH Hs]; [constructor|].
  apply step_next in Hs
    as (u & rest & Hq & Hb &
        [(Hv & ->)|[(Hv & Hf & ->)|(Hv & html & q' & Hg & Hok & Hd & ->)]]);
    simpl; try done.
  apply Forall_app. split; [done|]. apply Forall_singleton.
  by exists (requests st), html.
Qed.

(** The URLs of the queue and the requests are the start URL and links
    that passed the domain test. *)
Lemma reaches_in_domain (st : state) :
  reaches_ (initial start_url) st ->
  Forall (fun u => u = start_url \/
                   exists host, netloc u = Some host /\
                     same_domain base_domain (strip_www host) = true)
    (queue st ++ requests st).
Proof.
  induction 1 as [|st st' Hr [Iq Ir]%Forall_app Hs].
  - simpl. apply Forall_singleton. by left.
  - apply step_next in Hs
      as (u & rest & Hq & Hb &
          [(Hv & ->)|[(Hv & Hf & ->)|(Hv & html & q' & Hg & Hok & Hd & ->)]]);
      simpl; rewrite Hq in Iq; apply Forall_cons_1 in Iq as [Iu Iq];
      rewrite ?Forall_app, ?Forall_singleton.
    + done.
    + done.
    + apply discover_appends in Hd as (added & -> & Hadd).
      rewrite Forall_app. repeat split; try done. apply Forall_forall.
      intros link (_ & href & _ & host & _ & Hn & Hs)%Hadd.
      right. by exists host.
Qed.

(** Nothing is fetched before the start URL: until its page is in the
    result, the queue holds the start URL alone or, once its fetch has
    failed, nothing; afterwards its page is the first of the result. *)
Lemma reaches_start_first (st : state) :
  reaches_ (initial start_url) st ->
  (pages st = [] /\ visited st = ∅ /\
   ((queue st = [start_url] /\ requests st = []) \/
    (queue st = [] /\ fetch_fails (http_get [] start_url)))) \/
  (exists p rest html,
     pages st = p :: rest /\ url p = start_url /\
     http_get [] start_url = Response 200 html).
Proof.
  induction 1 as [|st st' Hr IH Hs]; [left; simpl; auto|].
  apply step_next in Hs
    as (u & rest & Hq & Hb &
        [(Hv & ->)|[(Hv & Hf & ->)|(Hv & html & q' & Hg & Hok & Hd & ->)]]);
    simpl.
  - destruct IH as [(Hp & He & _)|IH]; [|by right].
    rewrite He in Hv. by apply elem_of_empty in Hv.
  - destruct IH as [(Hp & He & [[Hs Hrq]|[Hs _]])|IH]; [| |by right].
    + left. rewrite Hs in Hq. injection Hq as <- <-. rewrite Hrq in Hf. auto.
    + by rewrite Hs in Hq.
  - right.
    destruct IH as [(Hp & He & [[Hs Hrq]|[Hs _]])|(p & r & h & -> & Hu & Hh)].
    + rewrite Hs in Hq. injection Hq as <- <-. rewrite Hp. rewrite Hrq in Hg.
      eexists _, [], html. by repeat split.
    + by rewrite Hs in Hq.
    + eexists p, _, h. by repeat split.
Qed.

End CrawlResults.

Section CrawlTheorems.

Variable http_get : list string -> string -> fetch_result.
Variable parses : string -> bool.
Variable get_text : string -> string.
Variable find_all_a_href : string -> list string.
Variable urljoin : string -> string -> option string.
Variable netloc : string -> option string.

Local Abbreviation run_crawl_state_ :=
  (run_crawl_state http_get parses get_text find_all_a_href urljoin netloc).
Local Abbreviation run_crawl_ :=
  (run_crawl http_get parses get_text find_all_a_href urljoin netloc).

(** The final state of a crawl that returns is a state of the loop in
    which the loop test fails. *)
Lemma run_crawl_state_returns fuel start_url max_pages final :
  run_crawl_state_ fuel start_url max_pages = Some (Returns final) ->
  exists host,
    netloc start_url = Some host /\
    reaches http_get parses get_text find_all_a_href urljoin netloc (strip_www host)
      max_pages (initial start_url) final /\
    (queue final = [] \/ max_pages <= Z.of_nat (size (visited final))).
Proof.
  unfold run_crawl_state. destruct (netloc start_url) as [host|]; [|done].
  intros [Hr Hd]%crawl_loop_returns. exists host. split; [done|].
  split; [done|]. by apply step_done in Hd.
Qed.

Lemma run_crawl_returns fuel start_url max_pages result :
  run_crawl_ fuel start_url max_pages = Some (Some result) ->
  exists final,
    run_crawl_state_ fuel start_url max_pages = Some (Returns final) /\
    result = pages final.
Proof.
  unfold run_crawl.
  destruct (run_crawl_state_ fuel start_url max_pages) as [[final|]|];
    try done.
  intros [= <-]. by exists final.
Qed.


(** X9: [run_crawl] ends for every fetcher, parser, start URL and budget:
    from some number of turns on, the result is the same, a page list or
    an exception. *)
Theorem run_crawl_terminates (start_url : string) (max_pages : Z) :
  exists fuel result,
    forall fuel', (fuel <= fuel')%nat ->
      run_crawl http_get parses get_text find_all_a_href urljoin netloc fuel'
        start_url max_pages = Some result.
Proof.
  unfold run_crawl, run_crawl_state.
  destruct (netloc start_url) as [host|].
  - destruct (crawl_loop_terminates http_get parses get_text find_all_a_href urljoin
                netloc (strip_www host) max_pages (initial start_url))
      as (fuel & out & Hout).
    exists fuel. destruct out as [final|].
    + exists (Some (pages final)). intros fuel' Hle.
      by rewrite (crawl_loop_more_fuel _ _ _ _ _ _ _ _ _ _ _ _ Hout Hle).
    + exists None. intros fuel' Hle.
      by rewrite (crawl_loop_more_fuel _ _ _ _ _ _ _ _ _ _ _ _ Hout Hle).
  - by exists 0%nat, None.
Qed.

(** X10: when the crawl returns, it has at most [max(0, max_pages)]
    pages, their URLs are distinct, they are the visited set, and they come
    in the order in which they were requested. *)
Theorem result_within_budget
    (fuel : nat) (start_url : string) (max_pages : Z) (final : state) :
  run_crawl_state http_get parses get_text find_all_a_href urljoin netloc
    fuel start_url max_pages = Some (Returns final) ->
  Z.of_nat (length (pages final)) <= Z.max 0 max_pages /\
  NoDup (map url (pages final)) /\
  list_to_set (map url (pages final)) = visited final /\
  map url (pages final) `sublist_of` requests final.
Proof.
  intros (host & _ & Hr & _)%run_crawl_state_returns.
  apply reaches_pages in Hr as (Hl & Hb & Hd & Hv & Hs).
  split; [lia|]. split; [done|]. split; [|done].
  apply set_eq. intros u. by rewrite elem_of_list_to_set.
Qed.

(** X11: with a budget of zero or less the loop is not entered: nothing
    is requested and the result is the empty list. *)
Theorem zero_budget_fetches_nothing
    (fuel : nat) (start_url host : string) (max_pages : Z) :
  max_pages <= 0 ->
  netloc start_url = Some host ->
  run_crawl_state http_get parses get_text find_all_a_href urljoin netloc
    fuel start_url max_pages
  = Some (Returns (initial start_url)) /\
  run_crawl http_get parses get_text find_all_a_href urljoin netloc
    fuel start_url max_pages = Some (Some []).
Proof.
  intros Hm Hn.
  assert (H : run_crawl_state_ fuel start_url max_pages
              = Some (Returns (initial start_url))).
  { unfold run_crawl_state. rewrite Hn.
    assert (Hd : step http_get parses get_text find_all_a_href urljoin netloc
                   (strip_www host) max_pages (initial start_url) = Done).
    { apply step_done. right. rewrite initial_size. lia. }
    destruct fuel; simpl; by rewrite Hd. }
  split; [done|]. unfold run_crawl. by rewrite H.
Qed.

(** X12: every URL that the crawl requests is the start URL or a link
    whose host, once [www.] is removed, is empty or the base domain. *)
Theorem crawl_stays_in_domain
    (fuel : nat) (start_url host : string) (max_pages : Z) (final : state) :
  netloc start_url = Some host ->
  run_crawl_state http_get parses get_text find_all_a_href urljoin netloc
    fuel start_url max_pages = Some (Returns final) ->
  Forall (fun u =>
            u = start_url \/
            exists h, netloc u = Some h /\
              (strip_www h = "" \/ strip_www h = strip_www host))
    (requests final).
Proof.
  intros Hn (host' & Hn' & Hr & _)%run_crawl_state_returns.
  rewrite Hn in Hn'. injection Hn' as <-.
  apply reaches_in_domain in Hr. apply Forall_app in Hr as [_ Hr].
  eapply Forall_impl; [exact Hr|]. intros u [->|(h & Hh & Hs)]; [by left|].
  right. exists h. split; [done|]. unfold same_domain in Hs.
  apply orb_true_iff in Hs as [Hs|Hs]; apply bool_decide_eq_true in Hs; auto.
Qed.

(** X13: every page of the result is the scoring of a document that was
    fetched with status 200 at its URL and that the parser accepts: its type is that of its URL, it
    has the five personas in the order of the table, each with a score
    between 0 and 100. *)
Theorem pages_are_scored_fetches
    (fuel : nat) (start_url : string) (max_pages : Z)
    (result : list PageResult) :
  run_crawl http_get parses get_text find_all_a_href urljoin netloc
    fuel start_url max_pages = Some (Some result) ->
  Forall (fun p =>
            (exists history html,
               http_get history (url p) = Response 200 html /\
               parses html = true /\
               p = make_page_info (url p) (clean_text get_text html)) /\
            page_type p = detect_page_type (url p) /\
            map fst (personas p)
            = ["Fixer"; "Skeptic"; "Optimizer"; "Explorer"; "DealMax"] /\
            Forall (fun entry => 0 <= ps_score (snd entry) <= 100)
              (personas p))
    result.
Proof.
  intros (final & (host & _ & Hr & _)%run_crawl_state_returns & ->)%run_crawl_returns.
  apply reaches_page_content in Hr.
  eapply Forall_impl; [exact Hr|]. intros p (history & html & Hg & Hok & Hp).
  split; [by exists history, html|]. rewrite Hp. simpl.
  split; [done|]. split; [done|].
  repeat constructor; simpl; lia.
Qed.

(** X14: the result is empty exactly when the budget is zero or less or
    the first fetch of the start URL fails; otherwise its first page is
    the page of the start URL. *)
Theorem start_page_first
    (fuel : nat) (start_url : string) (max_pages : Z)
    (result : list PageResult) :
  run_crawl http_get parses get_text find_all_a_href urljoin netloc
    fuel start_url max_pages = Some (Some result) ->
  (result = [] <-> max_pages <= 0 \/ fetch_fails (http_get [] start_url)) /\
  (forall p rest, result = p :: rest -> url p = start_url).
Proof.
  intros (final & (host & _ & Hr & Hd)%run_crawl_state_returns & ->)%run_crawl_returns.
  pose proof (reaches_pages _ _ _ _ _ _ _ _ _ _ Hr) as (Hl & Hb & _).
  apply reaches_start_first in Hr
    as [(Hp & He & [[Hq _]|[_ Hf]])|(p & rest & html & Hp & Hu & Hg)].
  - rewrite Hp. split; [|done]. split; [|done]. intros _. left.
    destruct Hd as [Hd|Hd]; [by rewrite Hq in Hd|].
    rewrite He, size_empty in Hd. lia.
  - rewrite Hp. split; [|done]. split; [|done]. intros _. by right.
  - rewrite Hp. split.
    + split; [done|]. intros [Hm|Hf].
      * rewrite Hp in Hl. simpl in Hl. lia.
      * rewrite Hg in Hf. by simpl in Hf.
    + by intros p' rest' [= <- <-].
Qed.


End CrawlTheorems.

(** *** The crawl theorems on small sites *)

Lemma result_within_budget_witness :
  exists final,
    Sites.crawl_state Sites.retry_site 4 "https://example.com/" 5
    = Some (Returns final) /\
    Z.of_nat (length (pages final)) <= Z.max 0 5 /\
    NoDup (map url (pages final)) /\
    list_to_set (map url (pages final)) = visited final /\
    map url (pages final) `sublist_of` requests final.
Proof.
  eexists. split; [vm_compute; reflexivity|].
  apply (result_within_budget (Sites.serve Sites.retry_site) Markup.parses Markup.get_text
           Markup.find_all_a_href Urllib.urljoin Urllib.netloc
           4 "https://example.com/" 5).
  vm_compute. reflexivity.
Defined.

Lemma zero_budget_fetches_nothing_witness :
  Sites.crawl_state Sites.ring 7 "https://www.example.com/p0" 0
  = Some (Returns (initial "https://www.example.com/p0")) /\
  Sites.crawl Sites.ring 7 "https://www.example.com/p0" 0 = Some (Some []).
Proof.
  apply (zero_budget_fetches_nothing (Sites.serve Sites.ring) Markup.parses Markup.get_text
           Markup.find_all_a_href Urllib.urljoin Urllib.netloc
           7 "https://www.example.com/p0" "www.example.com" 0).
  - lia.
  - vm_compute. reflexivity.
Defined.

Lemma crawl_stays_in_domain_witness :
  exists final,
    Sites.crawl_state Sites.retry_site 4 "https://example.com/" 5
    = Some (Returns final) /\
    Forall (fun u =>
              u = "https://example.com/" \/
              exists h, Urllib.netloc u = Some h /\
                (strip_www h = "" \/ strip_www h = strip_www "example.com"))
      (requests final).
Proof.
  eexists. split; [vm_compute; reflexivity|].
  apply (crawl_stays_in_domain (Sites.serve Sites.retry_site) Markup.parses Markup.get_text
           Markup.find_all_a_href Urllib.urljoin Urllib.netloc
           4 "https://example.com/" "example.com" 5).
  - vm_compute. reflexivity.
  - vm_compute. reflexivity.
Defined.

Lemma pages_are_scored_fetches_witness :
  exists result,
    Sites.crawl Sites.retry_site 4 "https://example.com/" 5
    = Some (Some result) /\
    Forall (fun p =>
              (exists history html,
                 Sites.serve Sites.retry_site history (url p)
                 = Response 200 html /\
                 Markup.parses html = true /\
                 p = make_page_info (url p)
                       (clean_text Markup.get_text html)) /\
              page_type p = detect_page_type (url p) /\
              map fst (personas p)
              = ["Fixer"; "Skeptic"; "Optimizer"; "Explorer"; "DealMax"] /\
              Forall (fun entry => 0 <= ps_score (snd entry) <= 100)
                (personas p))
      result.
Proof.
  eexists. split; [vm_compute; reflexivity|].
  apply (pages_are_scored_fetches (Sites.serve Sites.retry_site) Markup.parses
           Markup.get_text Markup.find_all_a_href Urllib.urljoin Urllib.netloc
           4 "https://example.com/" 5).
  vm_compute. reflexivity.
Defined.

Lemma start_page_first_witness :
  exists result,
    Sites.crawl Sites.retry_site 4 "https://example.com/" 5
    = Some (Some result) /\
    (result = [] <->
     5 <= 0 \/
     fetch_fails (Sites.serve Sites.retry_site [] "https://example.com/")) /\
    (forall p rest, result = p :: rest -> url p = "https://example.com/").
Proof.
  eexists. split; [vm_compute; reflexivity|].
  apply (start_page_first (Sites.serve Sites.retry_site) Markup.parses
           Markup.get_text Markup.find_all_a_href Urllib.urljoin Urllib.netloc
           4 "https://example.com/" 5).
  vm_compute. reflexivity.
Defined.





(** X20: on a site where every page within reach of the start URL is
    fetched with status 200, is accepted by the parser and has anchors on
    which the URL functions do not raise, and which has at least as many
    such pages as the budget [max_pages >= 0], [run_crawl] returns: the
    loop comes to a state in which its test fails, with exactly
    [max_pages] visited URLs and [max_pages] pages of distinct URLs, each
    the scoring of the site's document at a page within reach; at every
    turn the visited set holds at most [max_pages] URLs, and the loop is
    left exactly when the queue is empty or the visited set holds
    [max_pages] URLs. *)
Theorem crawl_fills_budget
    (http_get : list string -> string -> fetch_result)
    (parses : string -> bool) (get_text : string -> string)
    (find_all_a_href : string -> list string)
    (urljoin : string -> string -> option string)
    (netloc : string -> option string)
    (site : string -> string) (start_url host : string) (max_pages : Z)
    (targets : list string) :
  0 <= max_pages ->
  netloc start_url = Some host ->
  (forall history url,
     page_reachable find_all_a_href urljoin netloc (strip_www host) site
       start_url url ->
     http_get history url = Response 200 (site url)) ->
  (forall url,
     page_reachable find_all_a_href urljoin netloc (strip_www host) site
       start_url url ->
     parses (site url) = true) ->
  (forall url,
     page_reachable find_all_a_href urljoin netloc (strip_www host) site
       start_url url ->
     links_resolve find_all_a_href urljoin netloc url (site url)) ->
  NoDup targets ->
  Forall (page_reachable find_all_a_href urljoin netloc (strip_www host) site
            start_url) targets ->
  max_pages <= Z.of_nat (length targets) ->
  exists fuel final,
    run_crawl_state http_get parses get_text find_all_a_href urljoin netloc
      fuel start_url max_pages = Some (Returns final) /\
    run_crawl http_get parses get_text find_all_a_href urljoin netloc
      fuel start_url max_pages = Some (Some (pages final)) /\
    reaches http_get parses get_text find_all_a_href urljoin netloc
      (strip_www host) max_pages (initial start_url) final /\
    step http_get parses get_text find_all_a_href urljoin netloc
      (strip_www host) max_pages final = Done /\
    Z.of_nat (length (pages final)) = max_pages /\
    Z.of_nat (size (visited final)) = max_pages /\
    NoDup (map url (pages final)) /\
    Forall (fun p =>
              page_reachable find_all_a_href urljoin netloc (strip_www host)
                site start_url (url p) /\
              p = make_page_info (url p) (clean_text get_text (site (url p))))
      (pages final) /\
    forall st,
      reaches http_get parses get_text find_all_a_href urljoin netloc
        (strip_www host) max_pages (initial start_url) st ->
      Z.of_nat (size (visited st)) <= max_pages /\
      (step http_get parses get_text find_all_a_href urljoin netloc
         (strip_www host) max_pages st = Done <->
       queue st = [] \/ max_pages <= Z.of_nat (size (visited st))).
Proof.
  intros Hmax Hhost Hfetch Hok Hres Hnd Hall Hlen.
  destruct (crawl_loop_fills_budget http_get parses get_text find_all_a_href
              urljoin netloc (strip_www host) max_pages site start_url
              Hfetch Hok Hres targets Hmax Hnd Hall Hlen)
    as (fuel & final & Hloop & Hp & Hv).
  exists fuel, final. unfold run_crawl, run_crawl_state. rewrite Hhost, Hloop.
  apply crawl_loop_returns in Hloop as [Hr Hd].
  split; [done|]. split; [done|]. split; [done|]. split; [done|].
  split; [done|]. split; [done|].
  pose proof (reaches_pages _ _ _ _ _ _ _ _ _ _ Hr) as (_ & _ & Hdup & Hin & _).
  pose proof (reaches_frontier _ _ _ _ _ _ _ _ _ _ Hfetch Hok Hres _ Hr)
    as (Hvis & _).
  split; [done|]. split.
  - pose proof (reaches_page_content _ _ _ _ _ _ _ _ _ _ Hr) as Hc.
    rewrite Forall_forall in Hc. apply Forall_forall. intros p Hp'.
    assert (Hreach : page_reachable find_all_a_href urljoin netloc
                       (strip_www host) site start_url (url p)).
    { apply Hvis, Hin, list_elem_of_fmap. by exists p. }
    split; [done|].
    destruct (Hc p Hp') as (history & html & Hg & _ & Hpage).
    rewrite Hfetch in Hg by done. injection Hg as <-. done.
  - intros st Hst. split; [|apply step_done].
    eapply reaches_budget; [done| |]; rewrite initial_size; [done|lia].
Qed.

(** With a budget of three pages, the crawl of the eleven-page site
    returns three pages. *)
Lemma crawl_fills_budget_witness :
  exists fuel final,
    Sites.crawl_state Sites.ring fuel "https://www.example.com/p0" 3
    = Some (Returns final) /\
    Sites.crawl Sites.ring fuel "https://www.example.com/p0" 3
    = Some (Some (pages final)) /\
    reaches (Sites.serve Sites.ring) Markup.parses Markup.get_text
      Markup.find_all_a_href Urllib.urljoin Urllib.netloc
      (strip_www "www.example.com") 3 (initial "https://www.example.com/p0")
      final /\
    Sites.step_on Sites.ring (strip_www "www.example.com") 3 final = Done /\
    Z.of_nat (length (pages final)) = 3 /\
    Z.of_nat (size (visited final)) = 3 /\
    NoDup (map url (pages final)) /\
    Forall (fun p =>
              page_reachable Markup.find_all_a_href Urllib.urljoin
                Urllib.netloc (strip_www "www.example.com")
                (Sites.body_of Sites.ring) "https://www.example.com/p0"
                (url p) /\
              p = make_page_info (url p)
                    (clean_text Markup.get_text
                       (Sites.body_of Sites.ring (url p))))
      (pages final) /\
    forall st,
      reaches (Sites.serve Sites.ring) Markup.parses Markup.get_text
        Markup.find_all_a_href Urllib.urljoin Urllib.netloc
        (strip_www "www.example.com") 3
        (initial "https://www.example.com/p0") st ->
      Z.of_nat (size (visited st)) <= 3 /\
      (Sites.step_on Sites.ring (strip_www "www.example.com") 3 st = Done <->
       queue st = [] \/ 3 <= Z.of_nat (size (visited st))).
Proof.
  apply (crawl_fills_budget (Sites.serve Sites.ring) Markup.parses
           Markup.get_text Markup.find_all_a_href Urllib.urljoin Urllib.netloc
           (Sites.body_of Sites.ring) "https://www.example.com/p0"
           "www.example.com" 3
           ["https://www.example.com/p0"; "https://www.example.com/p1";
            "https://www.example.com/p2"; "https://www.example.com/p3"]).
  - lia.
  - vm_compute. reflexivity.
  - intros history url Hr.
    apply (site_closed_page _ _ _ url ring_closed).
    exact (site_closed_reachable _ _ _ _ url ring_closed ring_start Hr).
  - intros url Hr.
    apply (site_closed_page _ _ _ url ring_closed).
    exact (site_closed_reachable _ _ _ _ url ring_closed ring_start Hr).
  - intros url Hr.
    apply (site_closed_page _ _ _ url ring_closed).
    exact (site_closed_reachable _ _ _ _ url ring_closed ring_start Hr).
  - apply (bool_decide_unpack _). vm_compute. exact I.
  - repeat apply Forall_cons_2; [constructor| | | |apply Forall_nil_2];
      (eapply reach_link; [constructor|]).
    + apply (ring_link "1"). by left.
    + apply (ring_link "2"). right. by left.
    + apply (ring_link "3"). right. right. by left.
  - simpl. lia.
Defined.

(** ** The API keys *)

(** [c in s] for a character. *)
Lemma contains_char_cons (c d : ascii) (s : string) :
  PyStr.contains (String c EmptyString) (String d s)
  = Ascii.eqb c d || PyStr.contains (String c EmptyString) s.
Proof. simpl. by destruct (Ascii.eqb c d). Qed.

Lemma lstrip_keeps_absent (c : ascii) (s : string) :
  PyStr.contains (String c EmptyString) s = false ->
  PyStr.contains (String c EmptyString) (PyStr.lstrip s) = false.
Proof.
  induction s as [|d s IH]; [done|].
  cbn [PyStr.lstrip]. destruct (PyStr.is_space d); [|done].
  rewrite contains_char_cons. intros [_ H]%orb_false_elim. by apply IH.
Qed.

Lemma rstrip_cons (d : ascii) (s : string) :
  PyStr.rstrip (String d s)
  = if bool_decide (PyStr.rstrip s = EmptyString)
    then if PyStr.is_space d then EmptyString else String d EmptyString
    else String d (PyStr.rstrip s).
Proof. cbn [PyStr.rstrip]. by destruct (PyStr.rstrip s). Qed.

Lemma rstrip_keeps_absent (c : ascii) (s : string) :
  PyStr.contains (String c EmptyString) s = false ->
  PyStr.contains (String c EmptyString) (PyStr.rstrip s) = false.
Proof.
  induction s as [|d s IH]; [done|].
  rewrite contains_char_cons, rstrip_cons.
  intros [Hd Hs]%orb_false_elim. specialize (IH Hs).
  case_bool_decide; [destruct (PyStr.is_space d)|];
    rewrite ?contains_char_cons, ?Hd; done.
Qed.

(** Stripped text starts and ends with a character that is not white
    space, and stripping it again changes nothing. *)
Lemma lstrip_head (s : string) (c : ascii) (r : string) :
  PyStr.lstrip s = String c r -> PyStr.is_space c = false.
Proof.
  induction s as [|d s IH]; [done|]. cbn [PyStr.lstrip].
  destruct (PyStr.is_space d) eqn:Ed; [done|]. by intros [= <- <-].
Qed.

Lemma rstrip_idempotent (s : string) :
  PyStr.rstrip (PyStr.rstrip s) = PyStr.rstrip s.
Proof.
  induction s as [|d s IH]; [done|].
  rewrite rstrip_cons. case_bool_decide as He.
  - destruct (PyStr.is_space d) eqn:Ed; [done|].
    rewrite rstrip_cons. cbn [PyStr.rstrip].
    rewrite bool_decide_eq_true_2 by done. by rewrite Ed.
  - rewrite rstrip_cons, IH. by rewrite bool_decide_eq_false_2.
Qed.

Lemma rstrip_head (s : string) (c : ascii) (r : string) :
  PyStr.rstrip s = String c r -> exists r', s = String c r'.
Proof.
  destruct s as [|d s]; [done|]. rewrite rstrip_cons.
  case_bool_decide; [destruct (PyStr.is_space d)|]; intros [= <- <-]; eauto.
Qed.

Lemma lstrip_fixed (c : ascii) (r : string) :
  PyStr.is_space c = false -> PyStr.lstrip (String c r) = String c r.
Proof. intros H. cbn [PyStr.lstrip]. by rewrite H. Qed.

Lemma strip_idempotent (s : string) :
  PyStr.strip (PyStr.strip s) = PyStr.strip s.
Proof.
  unfold PyStr.strip.
  destruct (PyStr.rstrip (PyStr.lstrip s)) as [|c r] eqn:Er; [done|].
  destruct (rstrip_head _ _ _ Er) as [r' Hl].
  rewrite lstrip_fixed by (by eapply lstrip_head).
  rewrite <- Er. apply rstrip_idempotent.
Qed.

(** The pieces of a split hold no separator. *)
Lemma split_pieces (s : string) (sep : ascii) :
  PyStr.split s sep <> [] /\
  Forall (fun piece => PyStr.contains (String sep EmptyString) piece = false)
    (PyStr.split s sep).
Proof.
  induction s as [|c s [IH0 IH]]; [split; [done|by repeat constructor]|].
  cbn [PyStr.split]. destruct (Ascii.eqb_spec c sep) as [->|Hc].
  - split; [done|]. by constructor.
  - destruct (PyStr.split s sep) as [|piece pieces]; [done|].
    split; [done|]. apply Forall_cons_1 in IH as [Hp Hr].
    constructor; [|done]. rewrite contains_char_cons, Hp.
    destruct (Ascii.eqb_spec sep c); [by subst|done].
Qed.

(** A key of the set is not empty, is stripped and holds no comma. *)
Lemma valid_key_clean (API_KEYS : option string) (key : string) :
  key ∈ VALID_API_KEYS API_KEYS ->
  key <> EmptyString /\ PyStr.strip key = key /\
  PyStr.contains "," key = false.
Proof.
  unfold VALID_API_KEYS. rewrite elem_of_list_to_set, list_elem_of_fmap.
  intros (piece & -> & [Hne Hin]%list_elem_of_filter).
  split; [done|]. split; [apply strip_idempotent|].
  apply rstrip_keeps_absent, lstrip_keeps_absent.
  pose proof (proj2 (split_pieces (default EmptyString API_KEYS) ",")) as Hp.
  rewrite Forall_forall in Hp. by apply Hp.
Qed.

(** X16: a key that [get_api_key] returns is the key of the header, it is
    one of the valid keys, it is not empty, it has no white space at its
    ends and no comma. *)
Theorem accepted_key_is_clean (API_KEYS api_key : option string) (key : string) :
  get_api_key API_KEYS api_key = inr key ->
  api_key = Some key /\ key ∈ VALID_API_KEYS API_KEYS /\
  key <> EmptyString /\ PyStr.strip key = key /\
  PyStr.contains "," key = false.
Proof.
  unfold get_api_key. destruct api_key as [k|]; [|done].
  case_bool_decide as Hk; [|done]. intros [= <-].
  split; [done|]. split; [done|]. by apply (valid_key_clean API_KEYS).
Qed.

Lemma accepted_key_is_clean_witness :
  Some "k1" = Some "k1" /\ "k1" ∈ VALID_API_KEYS (Some " k1 , k2,,") /\
  "k1" <> EmptyString /\ PyStr.strip "k1" = "k1" /\
  PyStr.contains "," "k1" = false.
Proof.
  apply (accepted_key_is_clean (Some " k1 , k2,,") (Some "k1") "k1").
  vm_compute. reflexivity.
Defined.

(** In a text of commas and white space every piece is white space. *)
Lemma split_blank (s : string) (sep : ascii) :
  Forall (fun c => c = sep \/ PyStr.is_space c = true) (list_ascii_of_string s) ->
  Forall (fun piece => PyStr.lstrip piece = EmptyString) (PyStr.split s sep).
Proof.
  induction s as [|c s IH]; [by repeat constructor|].
  cbn [list_ascii_of_string PyStr.split].
  intros [Hc Hs]%Forall_cons_1. specialize (IH Hs).
  destruct (Ascii.eqb_spec c sep) as [->|Hne]; [by constructor|].
  destruct Hc as [Hc|Hc]; [done|].
  destruct (PyStr.split s sep) as [|piece pieces].
  - repeat constructor. cbn [PyStr.lstrip]. by rewrite Hc.
  - apply Forall_cons_1 in IH as [Hp Hr]. constructor; [|done].
    cbn [PyStr.lstrip]. by rewrite Hc.
Qed.

Lemma blank_keys_empty (API_KEYS : option string) :
  Forall (fun c => c = ","%char \/ PyStr.is_space c = true)
    (list_ascii_of_string (default EmptyString API_KEYS)) ->
  VALID_API_KEYS API_KEYS = ∅.
Proof.
  intros H%split_blank. unfold VALID_API_KEYS.
  induction H as [|piece pieces Hp _ IH]; [done|].
  assert (Hs : PyStr.strip piece = EmptyString).
  { unfold PyStr.strip. by rewrite Hp. }
  rewrite filter_cons. by destruct (decide _).
Qed.

(** X17: when [API_KEYS] is not set, or holds commas and white space
    only, every request is rejected with status 403, with or without a
    key. *)
Theorem blank_keys_reject_all (API_KEYS api_key : option string) :
  Forall (fun c => c = ","%char \/ PyStr.is_space c = true)
    (list_ascii_of_string (default EmptyString API_KEYS)) ->
  get_api_key API_KEYS api_key
  = inl {| exc_status_code := 403;
           exc_detail := "Invalid or missing API key" |}.
Proof.
  intros H%blank_keys_empty. unfold get_api_key.
  destruct api_key as [key|]; [|done]. rewrite H.
  by rewrite bool_decide_eq_false_2 by apply not_elem_of_empty.
Qed.

Lemma blank_keys_reject_all_witness :
  get_api_key None (Some "secret")
  = inl {| exc_status_code := 403;
           exc_detail := "Invalid or missing API key" |}.
Proof.
  apply (blank_keys_reject_all None (Some "secret")). constructor.
Defined.

(** Splitting what [join] put together gives the pieces back. *)
Lemma split_absent (s : string) (sep : ascii) :
  PyStr.contains (String sep EmptyString) s = false -> PyStr.split s sep = [s].
Proof.
  induction s as [|c s IH]; [done|].
  rewrite contains_char_cons. intros [Hc Hs]%orb_false_elim.
  cbn [PyStr.split]. rewrite Ascii.eqb_sym, Hc. by rewrite IH.
Qed.

Lemma split_app (s rest : string) (sep : ascii) :
  PyStr.contains (String sep EmptyString) s = false ->
  PyStr.split (String.append s (String sep rest)) sep
  = s :: PyStr.split rest sep.
Proof.
  induction s as [|c s IH].
  - intros _. simpl. by rewrite Ascii.eqb_refl.
  - rewrite contains_char_cons. intros [Hc Hs]%orb_false_elim.
    change (String.append (String c s) (String sep rest))
      with (String c (String.append s (String sep rest))).
    cbn [PyStr.split]. rewrite Ascii.eqb_sym, Hc. by rewrite IH.
Qed.

Lemma split_join (pieces : list string) (sep : ascii) :
  pieces <> [] ->
  Forall (fun piece => PyStr.contains (String sep EmptyString) piece = false)
    pieces ->
  PyStr.split (Markup.join (String sep EmptyString) pieces) sep = pieces.
Proof.
  induction pieces as [|p pieces IH]; [done|]. intros _ [Hp Hr]%Forall_cons_1.
  destruct pieces as [|q pieces]; [by apply split_absent|].
  change (Markup.join (String sep EmptyString) (p :: q :: pieces))
    with (String.append p
            (String sep (Markup.join (String sep EmptyString) (q :: pieces)))).
  rewrite split_app by done. by rewrite IH.
Qed.

(** X18: when [API_KEYS] is a comma-separated list of pieces, the keys
    that [get_api_key] accepts are the stripped pieces that are not
    empty. *)
Theorem listed_keys_are_accepted (pieces : list string) (key : string) :
  Forall (fun piece => PyStr.contains "," piece = false) pieces ->
  get_api_key (Some (Markup.join "," pieces)) (Some key) = inr key <->
  key <> EmptyString /\ exists piece, piece ∈ pieces /\ PyStr.strip piece = key.
Proof.
  intros Hp. unfold get_api_key, VALID_API_KEYS. simpl default.
  destruct pieces as [|p pieces].
  - simpl. split; [done|]. intros (_ & piece & Hin & _). by apply elem_of_nil in Hin.
  - rewrite split_join by done. case_bool_decide as Hk.
    + split; [intros _|done].
      apply elem_of_list_to_set, list_elem_of_fmap in Hk
        as (piece & -> & [Hne Hin]%list_elem_of_filter).
      split; [done|]. by exists piece.
    + split; [done|]. intros (Hne & piece & Hin & <-). destruct Hk.
      apply elem_of_list_to_set, list_elem_of_fmap. exists piece.
      split; [done|]. by apply list_elem_of_filter.
Qed.

Lemma listed_keys_are_accepted_witness :
  get_api_key (Some (Markup.join "," [" alpha "; ""; "beta"])) (Some "alpha")
  = inr "alpha" <->
  "alpha" <> EmptyString /\
  exists piece, piece ∈ [" alpha "; ""; "beta"] /\ PyStr.strip piece = "alpha".
Proof.
  apply (listed_keys_are_accepted [" alpha "; ""; "beta"] "alpha").
  repeat constructor.
Defined.

(** ** The endpoint *)

